(** * DeepseekDiscordAI: the rate-limited, retrying completion client

    A shallow embedding of [bot/openrouter_client.py] (class
    [OpenRouterClient]), of the configuration it reads
    ([bot/config.py]) and of the reply chunking and the ask command of
    its callers ([bot/discord_client.py]), followed by the properties
    of the specification that concern them.

    Conventions of the embedding:
    - Python [int] is [Z]; timestamps and durations ([time.time()],
      [asyncio.sleep], [retry_delay_base], a [float] in the source) are
      exact numbers of one fixed time unit, also [Z];
    - a Python [str] is a [string] read as a sequence of code points
      below 256;
    - a message (a [Dict[str, str]]) is a [gmap string string];
    - the clock only advances at the suspension points of the coroutine
      (the [await]s): sleeping and the network call. *)

From Stdlib Require Import ZArith Ascii String List Lia.
From stdpp Require Import base tactics option list gmap strings pretty.

Local Open Scope Z_scope.
Local Set Warnings "-register-all".

(** ** Python strings *)

Module PyStr.

(** [str.isspace] on one code point below 256. *)
Definition isspace (a : ascii) : bool :=
  let n := Z.of_nat (nat_of_ascii a) in
  ((9 <=? n) && (n <=? 13)) || ((28 <=? n) && (n <=? 32))
  || (n =? 133) || (n =? 160).

Fixpoint lstrip (s : string) : string :=
  match s with
  | EmptyString => EmptyString
  | String a s' => if isspace a then lstrip s' else s
  end.

Definition rstrip (s : string) : string :=
  String.rev (lstrip (String.rev s)).

(** [s.strip()] *)
Definition strip (s : string) : string := rstrip (lstrip s).


(** [needle in s] for two strings. *)
Definition contains (needle s : string) : bool :=
  match String.index 0 needle s with
  | Some _ => true
  | None => false
  end.

End PyStr.

(** ** JSON values, as [response.json()] returns them

    Numbers are integers here; a payload with a fractional number is
    outside the model. *)

Inductive json : Type :=
| JNull
| JBool (b : bool)
| JNum (n : Z)
| JStr (s : string)
| JArr (items : list json)
| JObj (fields : list (string * json)).

(** Exceptions the body of [generate_response] can see.  Each carries
    the text [str(e)] gives. *)
Inductive exn : Type :=
| TimeoutError                    (* asyncio.TimeoutError *)
| KeyError (text : string)
| TypeError (text : string)
| AttributeError (text : string)
| IndexError (text : string)
| ClientError (text : string).    (* anything else the transport raises *)

Definition str_exn (e : exn) : string :=
  match e with
  | TimeoutError => ""
  | KeyError t | TypeError t | AttributeError t | IndexError t
  | ClientError t => t
  end.

(** A computation that returns or raises. *)
Inductive result (A : Type) : Type :=
| Ok (a : A)
| Raise (e : exn).
Arguments Ok {A} a.
Arguments Raise {A} e.

Module Py.

Definition type_name (v : json) : string :=
  match v with
  | JNull => "NoneType"
  | JBool _ => "bool"
  | JNum _ => "int"
  | JStr _ => "str"
  | JArr _ => "list"
  | JObj _ => "dict"
  end.

(** [bool(v)] *)
Definition truthy (v : json) : bool :=
  match v with
  | JNull => false
  | JBool b => b
  | JNum n => negb (n =? 0)
  | JStr s => negb (String.eqb s "")
  | JArr l => match l with [] => false | _ => true end
  | JObj l => match l with [] => false | _ => true end
  end.

(** The value of key [k] in a decoded object, whose fields are listed
    in the order of the text: of two fields with one name the later one
    wins, as in [json.loads]. *)
Fixpoint lookup_field (k : string) (fields : list (string * json))
  : option json :=
  match fields with
  | [] => None
  | (k', v) :: rest =>
      match lookup_field k rest with
      | Some later => Some later
      | None => if String.eqb k k' then Some v else None
      end
  end.

Definition is_str (k : string) (v : json) : bool :=
  match v with
  | JStr s => String.eqb k s
  | _ => false
  end.

(** [k in v] for a string literal [k]. *)
Definition contains (k : string) (v : json) : result bool :=
  match v with
  | JObj fields =>
      Ok (match lookup_field k fields with Some _ => true | None => false end)
  | JArr items => Ok (existsb (is_str k) items)
  | JStr s => Ok (PyStr.contains k s)
  | _ => Raise (TypeError ("argument of type '" +:+ type_name v
                           +:+ "' is not iterable"))
  end.

(** [v[k]] for a string literal [k]. *)
Definition getitem (k : string) (v : json) : result json :=
  match v with
  | JObj fields =>
      match lookup_field k fields with
      | Some x => Ok x
      | None => Raise (KeyError ("'" +:+ k +:+ "'"))
      end
  | JArr _ => Raise (TypeError "list indices must be integers or slices, not str")
  | JStr _ => Raise (TypeError "string indices must be integers, not 'str'")
  | _ => Raise (TypeError ("'" +:+ type_name v +:+ "' object is not subscriptable"))
  end.

(** [v[0]], reached only for a truthy [v]. *)
Definition getitem0 (v : json) : result json :=
  match v with
  | JArr (x :: _) => Ok x
  | JArr [] => Raise (IndexError "list index out of range")
  | JStr (String a _) => Ok (JStr (String a EmptyString))
  | JStr EmptyString => Raise (IndexError "string index out of range")
  | JObj _ => Raise (KeyError "0")
  | _ => Raise (TypeError ("'" +:+ type_name v +:+ "' object is not subscriptable"))
  end.

(** [v.strip()] *)
Definition strip (v : json) : result string :=
  match v with
  | JStr s => Ok (PyStr.strip s)
  | _ => Raise (AttributeError ("'" +:+ type_name v
                                +:+ "' object has no attribute 'strip'"))
  end.

End Py.


(** ** Configuration ([bot/config.py], the fields the client reads) *)

Record BotConfig : Type := {
  openrouter_api_key : string;
  openrouter_base_url : string;
  model_name : string;
  system_prompt : string;
  max_history_messages : Z;
  max_response_length : Z;
  rate_limit_requests : Z;
  rate_limit_window : Z;
  retry_delay_base : Z;
  max_retries : Z
}.

(** [BotConfig()] when only the API key and the system prompt come from
    the environment: every other field takes the default written in
    [__init__]. *)
Definition default_config (api_key prompt : string) : BotConfig :=
  {| openrouter_api_key := api_key;
     openrouter_base_url := "https://openrouter.ai/api/v1";
     model_name := "deepseek/deepseek-r1-0528-qwen3-8b:free";
     system_prompt := prompt;
     max_history_messages := 20;
     max_response_length := 2000;
     rate_limit_requests := 10;
     rate_limit_window := 60;
     retry_delay_base := 1;
     max_retries := 3 |}.

(** ** Messages, requests and the network *)

(** One message: a dictionary with (normally) the keys "role" and
    "content". *)
Abbreviation message := (gmap string string).

(** The JSON body and headers of one POST.  The constant fields
    (temperature, top_p, stream, referer and title headers) are left
    out. *)
Record request : Type := {
  url : string;
  authorization : string;
  model : string;
  request_messages : list message;
  max_tokens : Z
}.

(** What the remote side does with one attempt. *)
Inductive net_outcome : Type :=
| Raised (e : exn)
    (* [session.post], [response.json()] or [response.text()] raised *)
| Response (status : Z) (data : json) (error_text : string).
    (* [data] is [await response.json()], read when the status is 200;
       [error_text] is [await response.text()], read otherwise *)

Record attempt_env : Type := {
  latency : Z;            (* time the network call takes *)
  outcome : net_outcome
}.

(** The remote side during one call: what attempt number [n] meets. *)
Abbreviation network := (Z -> attempt_env).

(** ** Observable events *)

Inductive log_level : Type := INFO | WARNING | ERROR.

Inductive log_msg : Type :=
| RateLimitReached (wait_time : Z)
| SuccessfullyGenerated
| NoChoices
| RateLimited429 (retry : Z)
| MaxRetriesExceeded
| ApiError (status : Z) (error_text : string)
| TimedOut
| ErrorCalling (e : exn).

Inductive event : Type :=
| CheckLimit (now : Z) (kept : list Z) (ok : bool) (* _check_rate_limit() *)
| RecordRequest (t : Z)                            (* _record_request() *)
| Sleep (d : Z)                                    (* await asyncio.sleep(d) *)
| Post (now : Z) (req : request)                   (* session.post(...) *)
| Log (level : log_level) (msg : log_msg).

(** ** The client's state and its monad *)

(** [request_times] is the ledger of the client object; [messages] is
    the list object the caller passed, which every retry of the call
    receives again (the same object, not a copy). *)
Record client : Type := Client {
  clock : Z;
  request_times : list Z;
  messages : list message
}.

Definition M (A : Type) : Type := client -> A * client * list event.

Global Instance M_ret : MRet M := fun A a c => (a, c, []).

Global Instance M_bind : MBind M := fun A B k m c =>
  let '(a, c1, e1) := m c in
  let '(b, c2, e2) := k a c1 in
  (b, c2, e1 ++ e2).

Definition time_time : M Z := fun c => (clock c, c, []).

Definition emit (e : event) : M unit := fun c => (tt, c, [e]).

Definition log (level : log_level) (msg : log_msg) : M unit :=
  emit (Log level msg).

(** [await asyncio.sleep(d)]: a delay that is not positive only yields. *)
Definition sleep (d : Z) : M unit := fun c =>
  (tt, Client (clock c + Z.max 0 d) (request_times c) (messages c), [Sleep d]).

Definition get_request_times : M (list Z) := fun c => (request_times c, c, []).

Definition set_request_times (l : list Z) : M unit := fun c =>
  (tt, Client (clock c) l (messages c), []).

Definition get_messages : M (list message) := fun c => (messages c, c, []).

Definition set_messages (l : list message) : M unit := fun c =>
  (tt, Client (clock c) (request_times c) l, []).

(** [async with self.session.post(...) as response] and the reading of
    its body. *)
Definition post (req : request) (a : attempt_env) : M net_outcome := fun c =>
  (outcome a,
   Client (clock c + Z.max 0 (latency a)) (request_times c) (messages c),
   [Post (clock c) req]).

(** ** [OpenRouterClient] *)

Definition _check_rate_limit (cfg : BotConfig) : M bool :=
  current_time ← time_time;
  old ← get_request_times;
  (* Remove old requests outside the window *)
  let kept :=
    filter (fun req_time => current_time - req_time < rate_limit_window cfg) old in
  set_request_times kept;;
  (* can we make another request? *)
  let ok := Z.of_nat (length kept) <? rate_limit_requests cfg in
  emit (CheckLimit current_time kept ok);;
  mret ok.

Definition _record_request : M unit :=
  t ← time_time;
  l ← get_request_times;
  set_request_times (l ++ [t]);;
  emit (RecordRequest t).

(** [min(l)] for a list that is not empty. *)
Definition py_min (first : Z) (rest : list Z) : Z := foldr Z.min first rest.

Definition _wait_for_rate_limit (cfg : BotConfig) : M unit :=
  l ← get_request_times;
  match l with
  | [] => mret tt
  | first :: rest =>
      let oldest_request := py_min first rest in
      now ← time_time;
      let wait_time := rate_limit_window cfg - (now - oldest_request) in
      if 0 <? wait_time
      then log INFO (RateLimitReached wait_time);; sleep wait_time
      else mret tt
  end.

Global Instance result_ret : MRet result := fun A a => Ok a.

Global Instance result_bind : MBind result := fun A B k r =>
  match r with
  | Ok a => k a
  | Raise e => Raise e
  end.

(** The test [if "choices" in data and data["choices"]] and, when it
    holds, [content = data["choices"][0]["message"]["content"]]:
    [Ok None] stands for the [else] branch. *)
Definition read_content (data : json) : result (option json) :=
  has ← Py.contains "choices" data;
  if negb has then mret None else
  choices ← Py.getitem "choices" data;
  if negb (Py.truthy choices) then mret None else
  choices ← Py.getitem "choices" data;
  first ← Py.getitem0 choices;
  message ← Py.getitem "message" first;
  content ← Py.getitem "content" message;
  mret (Some content).

(** [not messages or messages[0].get("role") != "system"] *)
Definition lacks_system_prompt (msgs : list message) : bool :=
  match msgs with
  | [] => true
  | first :: _ => negb (bool_decide (first !! "role"%string = Some "system"%string))
  end.

Definition system_message (cfg : BotConfig) : message :=
  {[ "role"%string := "system"%string;
     "content"%string := system_prompt cfg ]}.

Definition rate_limited_text : string :=
  "Sorry, I'm currently rate limited. Please try again later.".

Definition timed_out_text : string :=
  "Sorry, the request timed out. Please try again.".

(** The two [except] clauses.  [retry] is the recursive call
    [self.generate_response(messages, retry_count + 1)]. *)
Definition except (cfg : BotConfig) (retry_count : Z)
    (retry : M (option (option string))) (e : exn)
  : M (option (option string)) :=
  match e with
  | TimeoutError =>
      log ERROR TimedOut;;
      if retry_count <? max_retries cfg then retry
      else mret (Some (Some timed_out_text))
  | _ =>
      log ERROR (ErrorCalling e);;
      if retry_count <? max_retries cfg then retry
      else mret (Some (Some
             ("Sorry, I encountered an unexpected error: " +:+ str_exn e)))
  end.

(** [generate_response(messages, retry_count)].  The recursion of the
    source is on [retry_count], which grows up to [max_retries]; here it
    is bounded by [fuel], and the outer [None] means the fuel ran out.
    The inner option is the [Optional[str]] the method returns.
    [2 ^ retry_count] is [2 ** retry_count] for the counts the method is
    called with by its callers, which start at 0; the product with the
    float [retry_delay_base] is the one of the source for counts from 0
    to 1023 (from 1024 on the conversion of the power to a float
    raises). *)
Fixpoint generate_response_fuel (fuel : nat) (cfg : BotConfig)
    (net : network) (retry_count : Z) : M (option (option string)) :=
  match fuel with
  | O => mret None
  | S fuel =>
      let retry := generate_response_fuel fuel cfg net (retry_count + 1) in
      (* rate limits *)
      ok ← _check_rate_limit cfg;
      (if negb ok then _wait_for_rate_limit cfg else mret tt);;
      (* try: add system prompt if not present *)
      msgs ← get_messages;
      (if lacks_system_prompt msgs
       then set_messages (system_message cfg :: msgs)
       else mret tt);;
      msgs ← get_messages;
      let payload :=
        {| url := openrouter_base_url cfg +:+ "/chat/completions";
           authorization := "Bearer " +:+ openrouter_api_key cfg;
           model := model_name cfg;
           request_messages := msgs;
           max_tokens := max_response_length cfg |} in
      _record_request;;
      response ← post payload (net retry_count);
      match response with
      | Raised e => except cfg retry_count retry e
      | Response status data error_text =>
          if status =? 200 then
            match read_content data with
            | Raise e => except cfg retry_count retry e
            | Ok (Some content) =>
                log INFO SuccessfullyGenerated;;
                match Py.strip content with
                | Ok text => mret (Some (Some text))
                | Raise e => except cfg retry_count retry e
                end
            | Ok None =>
                log ERROR NoChoices;;
                mret (Some None)
            end
          else if status =? 429 then
            (* Rate limited *)
            log WARNING (RateLimited429 (retry_count + 1));;
            if retry_count <? max_retries cfg then
              let delay := retry_delay_base cfg * 2 ^ retry_count in
              sleep delay;;
              retry
            else
              log ERROR MaxRetriesExceeded;;
              mret (Some (Some rate_limited_text))
          else
            log ERROR (ApiError status error_text);;
            if retry_count <? max_retries cfg then
              let delay := retry_delay_base cfg * 2 ^ retry_count in
              sleep delay;;
              retry
            else
              mret (Some (Some
                ("Sorry, I encountered an error: " +:+ pretty status)))
      end
  end.

(** The method as callers use it: enough fuel for every retry the bound
    [max_retries] allows. *)
Definition generate_response (cfg : BotConfig) (net : network)
    (retry_count : Z) : M (option (option string)) :=
  generate_response_fuel (S (Z.to_nat (max_retries cfg - retry_count)))
    cfg net retry_count.

(** What a caller does: it passes a list object of its own and starts
    at [retry_count = 0]. *)
Definition complete (cfg : BotConfig) (net : network) (msgs : list message)
  : M (option (option string)) :=
  set_messages msgs;;
  generate_response cfg net 0.

(** ** One attempt, in two halves

    The body of [generate_response] cut at the network call.  These are
    the same statements, named so that the lemmas below can speak of
    them. *)

(** Everything an attempt does before the network call; the value is
    the payload it is about to send. *)
Definition prepare (cfg : BotConfig) : M request :=
  ok ← _check_rate_limit cfg;
  (if negb ok then _wait_for_rate_limit cfg else mret tt);;
  msgs ← get_messages;
  (if lacks_system_prompt msgs
   then set_messages (system_message cfg :: msgs)
   else mret tt);;
  msgs ← get_messages;
  _record_request;;
  mret {| url := openrouter_base_url cfg +:+ "/chat/completions";
          authorization := "Bearer " +:+ openrouter_api_key cfg;
          model := model_name cfg;
          request_messages := msgs;
          max_tokens := max_response_length cfg |}.

(** What an attempt does with the response; [retry] is the recursive
    call. *)
Definition conclude (cfg : BotConfig) (retry_count : Z)
    (retry : M (option (option string))) (response : net_outcome)
  : M (option (option string)) :=
  match response with
  | Raised e => except cfg retry_count retry e
  | Response status data error_text =>
      if status =? 200 then
        match read_content data with
        | Raise e => except cfg retry_count retry e
        | Ok (Some content) =>
            log INFO SuccessfullyGenerated;;
            match Py.strip content with
            | Ok text => mret (Some (Some text))
            | Raise e => except cfg retry_count retry e
            end
        | Ok None => log ERROR NoChoices;; mret (Some None)
        end
      else if status =? 429 then
        log WARNING (RateLimited429 (retry_count + 1));;
        if retry_count <? max_retries cfg then
          sleep (retry_delay_base cfg * 2 ^ retry_count);; retry
        else log ERROR MaxRetriesExceeded;; mret (Some (Some rate_limited_text))
      else
        log ERROR (ApiError status error_text);;
        if retry_count <? max_retries cfg then
          sleep (retry_delay_base cfg * 2 ^ retry_count);; retry
        else mret (Some (Some
               ("Sorry, I encountered an error: " +:+ pretty status)))
  end.

(** ** The same two halves as plain functions of the state *)

(** Ledger entries still inside the window at time [now]. *)
Definition prune (cfg : BotConfig) (now : Z) (l : list Z) : list Z :=
  filter (fun req_time => now - req_time < rate_limit_window cfg) l.

(** The oldest entry of a ledger, if it has one. *)
Definition oldest (l : list Z) : option Z :=
  match l with
  | [] => None
  | first :: rest => Some (py_min first rest)
  end.

(** Events of the rate-limit wait of an attempt that starts at [now]
    with the pruned ledger [kept]. *)
Definition budget_wait (cfg : BotConfig) (now : Z) (kept : list Z)
  : list event :=
  if Z.of_nat (length kept) <? rate_limit_requests cfg then []
  else match oldest kept with
       | None => []
       | Some oldest_request =>
           let wait_time := rate_limit_window cfg - (now - oldest_request) in
           if 0 <? wait_time
           then [Log INFO (RateLimitReached wait_time); Sleep wait_time]
           else []
       end.

(** Time spent in the sleeps of a trace. *)
Fixpoint slept (evs : list event) : Z :=
  match evs with
  | [] => 0
  | Sleep d :: rest => Z.max 0 d + slept rest
  | _ :: rest => slept rest
  end.

Definition with_system_prompt (cfg : BotConfig) (msgs : list message)
  : list message :=
  if lacks_system_prompt msgs then system_message cfg :: msgs else msgs.

Definition payload (cfg : BotConfig) (msgs : list message) : request :=
  {| url := openrouter_base_url cfg +:+ "/chat/completions";
     authorization := "Bearer " +:+ openrouter_api_key cfg;
     model := model_name cfg;
     request_messages := msgs;
     max_tokens := max_response_length cfg |}.

(** Time at which an attempt entered at state [c] issues its request. *)
Definition send_time (cfg : BotConfig) (c : client) : Z :=
  clock c + slept (budget_wait cfg (clock c)
                     (prune cfg (clock c) (request_times c))).

(** State in which an attempt entered at state [c] issues its request. *)
Definition prepared (cfg : BotConfig) (c : client) : client :=
  let t := send_time cfg c in
  Client t (prune cfg (clock c) (request_times c) ++ [t])
         (with_system_prompt cfg (messages c)).

Definition prepare_events (cfg : BotConfig) (c : client) : list event :=
  let kept := prune cfg (clock c) (request_times c) in
  CheckLimit (clock c) kept (Z.of_nat (length kept) <? rate_limit_requests cfg)
  :: budget_wait cfg (clock c) kept ++ [RecordRequest (send_time cfg c)].

(** Events of an attempt after its request, and its verdict: [Some r]
    when the method returns [r], [None] when it calls itself again. *)
Definition react_exn (cfg : BotConfig) (n : Z) (e : exn)
  : list event * option (option string) :=
  match e with
  | TimeoutError =>
      ([Log ERROR TimedOut],
       if n <? max_retries cfg then None else Some (Some timed_out_text))
  | _ =>
      ([Log ERROR (ErrorCalling e)],
       if n <? max_retries cfg then None
       else Some (Some ("Sorry, I encountered an unexpected error: "
                        +:+ str_exn e)))
  end.

Definition react (cfg : BotConfig) (n : Z) (o : net_outcome)
  : list event * option (option string) :=
  match o with
  | Raised e => react_exn cfg n e
  | Response status data error_text =>
      if status =? 200 then
        match read_content data with
        | Raise e => react_exn cfg n e
        | Ok (Some content) =>
            match Py.strip content with
            | Ok text => ([Log INFO SuccessfullyGenerated], Some (Some text))
            | Raise e =>
                (Log INFO SuccessfullyGenerated :: (react_exn cfg n e).1,
                 (react_exn cfg n e).2)
            end
        | Ok None => ([Log ERROR NoChoices], Some None)
        end
      else if status =? 429 then
        if n <? max_retries cfg then
          ([Log WARNING (RateLimited429 (n + 1));
            Sleep (retry_delay_base cfg * 2 ^ n)], None)
        else
          ([Log WARNING (RateLimited429 (n + 1)); Log ERROR MaxRetriesExceeded],
           Some (Some rate_limited_text))
      else
        if n <? max_retries cfg then
          ([Log ERROR (ApiError status error_text);
            Sleep (retry_delay_base cfg * 2 ^ n)], None)
        else
          ([Log ERROR (ApiError status error_text)],
           Some (Some ("Sorry, I encountered an error: " +:+ pretty status)))
  end.

Definition pass_time (d : Z) (c : client) : client :=
  Client (clock c + d) (request_times c) (messages c).

(** State in which attempt [n], entered at [c], returns or calls itself
    again. *)
Definition attempted (cfg : BotConfig) (net : network) (n : Z) (c : client)
  : client :=
  pass_time (Z.max 0 (latency (net n))
             + slept (react cfg n (outcome (net n))).1)
            (prepared cfg c).

(** Events of attempt [n] entered at [c]. *)
Definition attempt_events (cfg : BotConfig) (net : network) (n : Z)
    (c : client) : list event :=
  prepare_events cfg c
  ++ Post (send_time cfg c) (payload cfg (with_system_prompt cfg (messages c)))
  :: (react cfg n (outcome (net n))).1.

(** ** Reading a trace *)

Definition posted (e : event) : option (Z * request) :=
  match e with
  | Post t req => Some (t, req)
  | _ => None
  end.

(** The requests of a trace with the time each was issued at. *)
Definition posts (evs : list event) : list (Z * request) := omap posted evs.

(** Number of attempts that reached the network. *)
Definition attempts_made (evs : list event) : nat := length (posts evs).

(** Time of the first request of a trace. *)
Definition first_attempt (evs : list event) : option Z := fst <$> head (posts evs).

Definition recorded (e : event) : option Z :=
  match e with
  | RecordRequest t => Some t
  | _ => None
  end.

Definition checked (e : event) : option Z :=
  match e with
  | CheckLimit now _ _ => Some now
  | _ => None
  end.

(** Where an attempt stands: nothing done yet, budget checked, timestamp
    [t] recorded, request sent. *)
Inductive phase : Type := Start | Checked | Recorded (t : Z) | Posted.

Definition phase_step (p : phase) (e : event) : option phase :=
  match p, e with
  | (Start | Posted), CheckLimit _ _ _ => Some Checked
  | Checked, (Log _ _ | Sleep _) => Some Checked
  | Checked, RecordRequest t => Some (Recorded t)
  | Recorded t, Post t' _ => if t =? t' then Some Posted else None
  | Posted, (Log _ _ | Sleep _) => Some Posted
  | _, _ => None
  end.

Fixpoint run_phases (p : phase) (evs : list event) : option phase :=
  match evs with
  | [] => Some p
  | e :: rest =>
      match phase_step p e with
      | Some p' => run_phases p' rest
      | None => None
      end
  end.

(** Neither a budget check, nor a ledger entry, nor a request. *)
Definition quiet (e : event) : bool :=
  match e with
  | Log _ _ | Sleep _ => true
  | _ => false
  end.

(** ** Vocabulary of the specification *)

Definition is_system (m : message) : Prop :=
  m !! "role"%string = Some "system"%string.

(** The list starts with a system turn. *)
Definition starts_with_system (msgs : list message) : Prop :=
  exists first rest, msgs = first :: rest /\ is_system first.

Definition count_system (msgs : list message) : nat :=
  length (filter is_system msgs).

(** The failures the client retries: an exception of the transport (a
    timeout among them) and any status other than 200. *)
Definition retryable_failure (o : net_outcome) : Prop :=
  match o with
  | Raised _ => True
  | Response status _ _ => status <> 200
  end.

(** The texts returned once the retries are used up. *)
Inductive degraded_message : string -> Prop :=
| degraded_rate_limited : degraded_message rate_limited_text
| degraded_timed_out : degraded_message timed_out_text
| degraded_status (status : Z) :
    degraded_message ("Sorry, I encountered an error: " +:+ pretty status)
| degraded_unexpected (e : exn) :
    degraded_message ("Sorry, I encountered an unexpected error: "
                      +:+ str_exn e).

(** The reply text of a payload of the documented shape: an object whose
    "choices" is an array that starts with an object whose "message" is
    an object whose "content" is a string. *)
Definition reply_field (data : json) : option string :=
  match data with
  | JObj fields =>
      match Py.lookup_field "choices" fields with
      | Some (JArr (JObj first :: _)) =>
          match Py.lookup_field "message" first with
          | Some (JObj message) =>
              match Py.lookup_field "content" message with
              | Some (JStr text) => Some text
              | _ => None
              end
          | _ => None
          end
      | _ => None
      end
  | _ => None
  end.

(** A payload without usable choices: an object whose "choices" is
    absent or falsy (empty list, null, ...). *)
Definition no_choices (data : json) : Prop :=
  match data with
  | JObj fields =>
      match Py.lookup_field "choices" fields with
      | Some choices => Py.truthy choices = false
      | None => True
      end
  | _ => False
  end.

(** A run of [generate_response] entered at some attempt ends that very
    attempt through [return content.strip()]. *)
Definition attempt_succeeded
    (run : option (option string) * client * list event) : Prop :=
  attempts_made run.2 = 1%nat
  /\ last run.2 = Some (Log INFO SuccessfullyGenerated)
  /\ exists text, run.1.1 = Some (Some text).

(** The trace of a client whose ledger is [ledger] keeps to the budget
    discipline: each check prunes the ledger of that moment to the
    entries inside the window and compares their number with the
    budget; the wait that follows is the one the pruned ledger calls
    for; then the time reached is recorded and the request sent at that
    time; the next check starts from the ledger so extended. *)
Fixpoint follows_budget (cfg : BotConfig) (ledger : list Z)
    (evs : list event) : Prop :=
  match evs with
  | [] => True
  | CheckLimit now kept ok :: rest =>
      let waits := budget_wait cfg now kept in
      let t := now + slept waits in
      kept = prune cfg now ledger
      /\ ok = (Z.of_nat (length kept) <? rate_limit_requests cfg)
      /\ (exists req rest',
            rest = waits ++ RecordRequest t :: Post t req :: rest')
      /\ follows_budget cfg (kept ++ [t]) rest
  | _ :: rest => follows_budget cfg ledger rest
  end.

(** While the window opened by the attempt at time [t1] is not over,
    the ledger still holds [t1], holds nothing older, and holds at least
    [k] entries. *)
Definition budget_inv (cfg : BotConfig) (k : nat) (t1 : Z) (c : client)
  : Prop :=
  t1 <= clock c
  /\ (t1 + rate_limit_window cfg <= clock c
      \/ (In t1 (request_times c)
          /\ Forall (fun e => t1 <= e) (request_times c)
          /\ (k <= length (request_times c))%nat)).



(** ** The caller's side ([bot/discord_client.py]) *)

Module DiscordClient.

(** [range(0, n, step)] *)
Definition range_step (n step : nat) : list nat :=
  (fun k => (k * step)%nat) <$> seq 0 (Nat.div (n + step - 1) step).

(** [[response[i:i+2000] for i in range(0, len(response), 2000)]] *)
Definition chunks (response : string) : list string :=
  (fun i => String.substring i 2000 response)
    <$> range_step (String.length response) 2000.

End DiscordClient.

(** ** The conversation store *)

Module ConversationStore.

(** Modelled from the spec: a conversation key is a channel identifier
    or a user identifier; two keys are equal when kind and identifier
    match. *)
Inductive ConversationKey : Type :=
| ChannelKey (id : Z)
| UserKey (id : Z).

Global Instance ConversationKey_eq_dec : EqDecision ConversationKey.
Proof. solve_decision. Defined.

Global Instance ConversationKey_countable : Countable ConversationKey.
Proof.
  refine (inj_countable'
            (fun k => match k with ChannelKey i => inl i | UserKey i => inr i end)
            (fun s => match s with inl i => ChannelKey i | inr i => UserKey i end)
            _).
  intros []; reflexivity.
Defined.

(** Modelled from the spec: the three roles of a turn. *)
Inductive Role : Type := system | user | assistant.

(** Modelled from the spec: a turn is a role and a text. *)
Record Turn : Type := { role : Role; content : string }.

(** Modelled from the spec: the store itself ([bot/chat_manager.py],
    class [ChatManager]) is not among the sources; only its callers
    are.  A store maps each key to its log; [context] returns the log
    of a key, empty for an unseen key. *)
Definition context (key : ConversationKey)
    (store : gmap ConversationKey (list Turn)) : list Turn :=
  default [] (store !! key).

(** Modelled from the spec: [append] adds a turn to the log of [key],
    creating the log if absent; when the append would exceed
    [maxTurns] the oldest turn is evicted first, whatever its role. *)
Definition append (maxTurns : nat) (key : ConversationKey)
    (role : Role) (content : string)
    (store : gmap ConversationKey (list Turn))
  : gmap ConversationKey (list Turn) :=
  let log := context key store in
  let room := if decide (maxTurns <= length log)%nat then drop 1 log else log in
  <[key := room ++ [{| role := role; content := content |}]]> store.

(** A sequence of [append] calls, oldest first, on a fresh store. *)
Definition appends (maxTurns : nat) (calls : list (ConversationKey * Turn))
  : gmap ConversationKey (list Turn) :=
  foldl (fun store call =>
           append maxTurns call.1 (role call.2) (content call.2) store)
        ∅ calls.

(** The turns a sequence of calls appended to [key], in call order. *)
Definition appended_to (key : ConversationKey)
    (calls : list (ConversationKey * Turn)) : list Turn :=
  snd <$> filter (fun call => call.1 = key) calls.

(** The last [n] elements of a list. *)
Definition last_n {A : Type} (n : nat) (l : list A) : list A :=
  drop (length l - n) l.

End ConversationStore.

(** ** Data of the examples *)

Module Examples.

Definition cfg : BotConfig := default_config "key" "Be brief.".

Definition turn (role content : string) : message :=
  {[ "role"%string := role; "content"%string := content ]}.

Definition user_hi : message := turn "user" "hi".

(** A fresh client at time 0 that was handed the list [[user_hi]]. *)
Definition fresh : client := Client 0 [] [user_hi].

Definition reply (content : json) : json :=
  JObj [("choices"%string,
         JArr [JObj [("message"%string, JObj [("content"%string, content)])]])].

Definition answers (data : json) : attempt_env :=
  {| latency := 1; outcome := Response 200 data "" |}.

Definition always (a : attempt_env) : network := fun _ => a.

Definition always_429 : network :=
  always {| latency := 1; outcome := Response 429 JNull "slow down" |}.

Definition hello : network := always (answers (reply (JStr " hello "))).

(** A client handed a list whose system turn is not the first one. *)
Definition late_system : client :=
  Client 0 [] [user_hi; turn "system" "Speak like a pirate."].



(** A budget of two requests per window of sixty. *)
Definition cfg_two : BotConfig :=
  {| openrouter_api_key := "key";
     openrouter_base_url := "https://openrouter.ai/api/v1";
     model_name := "deepseek/deepseek-r1-0528-qwen3-8b:free";
     system_prompt := "Be brief.";
     max_history_messages := 20;
     max_response_length := 2000;
     rate_limit_requests := 2;
     rate_limit_window := 60;
     retry_delay_base := 1;
     max_retries := 3 |}.

(** The first attempt times out, the second is answered. *)
Definition timeout_then_hello : network := fun n =>
  if n =? 0 then {| latency := 30; outcome := Raised TimeoutError |}
  else answers (reply (JStr " hello ")).

(** The first attempt loses its connection, the second is answered. *)
Definition reset_then_hello : network := fun n =>
  if n =? 0
  then {| latency := 1; outcome := Raised (ClientError "Connection reset") |}
  else answers (reply (JStr " hello ")).

(** The request of a call on [fresh] under [cfg]. *)
Definition request_hi : request :=
  payload cfg [system_message cfg; user_hi].

(** A payload whose message has no content. *)
Definition no_content : json :=
  JObj [("choices"%string, JArr [JObj [("message"%string, JObj [])]])].

(** A payload whose first choice has no message. *)
Definition no_message : json := JObj [("choices"%string, JArr [JObj []])].

(** A payload with an empty list of choices. *)
Definition empty_choices : json := JObj [("choices"%string, JArr [])].

(** Three turns appended to one channel and one to another. *)
Definition calls : list (ConversationStore.ConversationKey
                         * ConversationStore.Turn) :=
  [(ConversationStore.ChannelKey 1,
    {| ConversationStore.role := ConversationStore.system;
       ConversationStore.content := "rules" |});
   (ConversationStore.ChannelKey 1,
    {| ConversationStore.role := ConversationStore.user;
       ConversationStore.content := "hi" |});
   (ConversationStore.UserKey 7,
    {| ConversationStore.role := ConversationStore.user;
       ConversationStore.content := "psst" |});
   (ConversationStore.ChannelKey 1,
    {| ConversationStore.role := ConversationStore.assistant;
       ConversationStore.content := "hello" |})].

(** A budget of no request at all. *)
Definition cfg_zero : BotConfig :=
  {| openrouter_api_key := "key";
     openrouter_base_url := "https://openrouter.ai/api/v1";
     model_name := "deepseek/deepseek-r1-0528-qwen3-8b:free";
     system_prompt := "Be brief.";
     max_history_messages := 20;
     max_response_length := 2000;
     rate_limit_requests := 0;
     rate_limit_window := 60;
     retry_delay_base := 1;
     max_retries := 3 |}.

(** The first attempt is answered 200 with a message without content,
    the second times out, the third is answered. *)
Definition no_content_then_timeout_then_hello : network := fun n =>
  if n =? 0 then answers no_content
  else if n =? 1 then {| latency := 30; outcome := Raised TimeoutError |}
  else answers (reply (JStr " hello ")).

End Examples.

(** ** More vocabulary: what a call does between and across attempts *)

(** The sleeps of a trace that come after a request and before the next
    budget check: the backoff delays, without the budget waits. *)
Fixpoint backoffs (after_post : bool) (evs : list event) : list Z :=
  match evs with
  | [] => []
  | Post _ _ :: rest => backoffs true rest
  | CheckLimit _ _ _ :: rest => backoffs false rest
  | Sleep d :: rest =>
      if after_post then d :: backoffs true rest else backoffs false rest
  | _ :: rest => backoffs after_post rest
  end.

(** The delay the source puts after attempt [k] when it retries: the
    backoff after a status other than 200, nothing after an exception or
    after a 200 whose payload could not be read. *)
Definition delay_after (cfg : BotConfig) (net : network) (k : Z) : list Z :=
  match outcome (net k) with
  | Response status _ _ =>
      if status =? 200 then [] else [retry_delay_base cfg * 2 ^ k]
  | Raised _ => []
  end.

(** The attempts the client answers by calling itself again while it is
    below the retry bound: an exception of the transport (a timeout
    among them), a status other than 200, and a status 200 whose payload
    cannot be read, the reading of the content or its [strip] raising. *)
Definition retried_failure (o : net_outcome) : Prop :=
  match o with
  | Raised _ => True
  | Response status data _ =>
      status <> 200
      \/ (exists e, read_content data = Raise e)
      \/ (exists content e,
            read_content data = Ok (Some content)
            /\ Py.strip content = Raise e)
  end.

(** ** Calls in a row on one client *)

(** One use of the client: after [idle] time units (none when [idle] is
    negative) a caller passes the list [call_messages] and the remote
    side behaves as [call_net]. *)
Record call : Type := {
  call_net : network;
  call_messages : list message;
  call_idle : Z
}.

(** Calls made one after the other, each returning before the next
    starts; the value is the final state with the events of all of
    them. *)
Fixpoint session (cfg : BotConfig) (calls : list call) (c : client)
  : client * list event :=
  match calls with
  | [] => (c, [])
  | k :: rest =>
      let run := complete cfg (call_net k) (call_messages k)
                   (pass_time (Z.max 0 (call_idle k)) c) in
      let after := session cfg rest run.1.2 in
      (after.1, run.2 ++ after.2)
  end.

(** The requests of a trace respect the budget: at each request, the
    requests issued so far, that one included, that are less than a
    window old are no more than the budget.  [past] holds the times of
    the requests issued before the trace. *)
Fixpoint within_budget (cfg : BotConfig) (past : list Z) (evs : list event)
  : Prop :=
  match evs with
  | [] => True
  | Post t _ :: rest =>
      Z.of_nat (length (prune cfg t (past ++ [t]))) <= rate_limit_requests cfg
      /\ within_budget cfg (past ++ [t]) rest
  | _ :: rest => within_budget cfg past rest
  end.

(** The ledger of the client stands for the requests issued so far: it
    agrees with their list at every pruning to come, and what it holds
    inside the window now is within the budget. *)
Definition ledger_tracks (cfg : BotConfig) (past : list Z) (c : client)
  : Prop :=
  (forall now, clock c <= now ->
     prune cfg now (request_times c) = prune cfg now past)
  /\ Z.of_nat (length (prune cfg (clock c) (request_times c)))
     <= rate_limit_requests cfg.

(** ** The HTTP session of the client

    The session objects of [aiohttp] are numbered in the order of their
    creation: [ClientSession()] makes a new, open one; [close()] closes
    the one it is called on (closing twice changes nothing).  A session
    object is truthy, open or closed. *)

Module Session.

Record state : Type := {
  session : option nat;   (* self.session: None or a session object *)
  created : nat;          (* session objects made so far *)
  closed : gset nat       (* those that were closed *)
}.

(** A client just constructed: [self.session = None]. *)
Definition init : state := {| session := None; created := 0; closed := ∅ |}.

Definition is_open (st : state) (id : nat) : Prop :=
  (id < created st)%nat /\ id ∉ closed st.

(** [self.session = aiohttp.ClientSession()] *)
Definition new_session (st : state) : state :=
  {| session := Some (created st);
     created := S (created st);
     closed := closed st |}.

(** [await self.session.close()] *)
Definition close_current (st : state) (id : nat) : state :=
  {| session := session st;
     created := created st;
     closed := {[id]} ∪ closed st |}.

Definition __aenter__ (st : state) : state := new_session st.

Definition __aexit__ (st : state) : state :=
  match session st with
  | Some id => close_current st id
  | None => st
  end.

Definition create_session (st : state) : state :=
  match session st with
  | Some _ => st
  | None => new_session st
  end.

Definition close_session (st : state) : state :=
  match session st with
  | Some id =>
      {| session := None;
         created := created st;
         closed := {[id]} ∪ closed st |}
  | None => st
  end.

(** The two methods the bot calls ([setup_hook] and [generate_response]
    call [create_session], [close] calls [close_session]). *)
Inductive op : Type := Create | Close.

Definition step (st : state) (o : op) : state :=
  match o with
  | Create => create_session st
  | Close => close_session st
  end.

(** No session object is open except, possibly, the one the client
    holds. *)
Definition no_leak (st : state) : Prop :=
  forall id, is_open st id -> session st = Some id.

(** Every session object named by the state was really made. *)
Definition well_formed (st : state) : Prop :=
  (forall id, id ∈ closed st -> (id < created st)%nat)
  /\ (forall id, session st = Some id -> (id < created st)%nat).

End Session.

(** ** Strings cut and put together *)

(** The strings of a list put end to end. *)
Definition join (l : list string) : string := foldr String.append EmptyString l.

(** [s[n:]] *)
Fixpoint string_drop (n : nat) (s : string) : string :=
  match n, s with
  | O, _ => s
  | S n', EmptyString => EmptyString
  | S n', String _ s' => string_drop n' s'
  end.

(** [a * n] in Python: the character [a] repeated [n] times. *)
Fixpoint repeat_char (n : nat) (a : ascii) : string :=
  match n with
  | O => EmptyString
  | S n' => String a (repeat_char n' a)
  end.

(** ** The ask command ([bot/discord_client.py], [ChatCommands]) *)

Module ChatCommands.










End ChatCommands.

(** ** Which messages reach the AI ([bot/discord_client.py], [DiscordBot]) *)

Module DiscordBot.

(** What [on_message] reads of a message. *)
Record incoming : Type := {
  author_bot : bool;     (* message.author.bot *)
  in_dm : bool;          (* isinstance(message.channel, discord.DMChannel) *)
  channel_id : Z;        (* message.channel.id *)
  mentions_bot : bool;   (* self.user in message.mentions *)
  content : string       (* message.content *)
}.

(** The two fields of the configuration [on_message] reads. *)
Record settings : Type := {
  command_prefix : string;
  chat_channel_id : option Z
}.

(** [if self.config.chat_channel_id:] on an [Optional[int]] *)
Definition configured (id : option Z) : bool :=
  match id with
  | Some n => negb (n =? 0)
  | None => false
  end.

Definition _should_respond_to_message (cfg : settings) (m : incoming) : bool :=
  (* Always respond to DMs *)
  if in_dm m then true
  (* If specific channel is configured, only respond there *)
  else if configured (chat_channel_id cfg) then
    match chat_channel_id cfg with
    | Some id => channel_id m =? id
    | None => false
    end
  (* Otherwise, respond to mentions *)
  else mentions_bot m.

(** What [on_message] does with a message: nothing, the commands only,
    or the commands and then [_handle_chat_message]. *)
Inductive handling : Type := Dropped | CommandsOnly | CommandsThenChat.

Definition on_message (cfg : settings) (m : incoming) : handling :=
  if author_bot m then Dropped
  else
    (* await self.process_commands(message) *)
    if String.prefix (command_prefix cfg) (content m) then CommandsOnly
    else if _should_respond_to_message cfg m then CommandsThenChat
    else CommandsOnly.

End DiscordBot.

(** ** The number guessing game ([bot/fun_commands.py]) *)

Module FunCommands.








End FunCommands.

(** ** The code block of the eval command ([bot/admin_commands.py]) *)

Module AdminCommands.

(** [s[start:-drop]] for [drop > 0]: the characters from index [start]
    up to, not including, the last [drop] ones; empty when there are
    none. *)
Definition slice_off (start drop : nat) (s : string) : string :=
  String.substring start (String.length s - drop - start) s.

(** The removal of the code fence in [eval_code]. *)
Definition strip_code_block (code : string) : string :=
  if String.prefix "```python" code then slice_off 9 3 code
  else if String.prefix "```" code then slice_off 3 3 code
  else code.

End AdminCommands.

(** ** Vocabulary of the guessing game *)




(** * Properties *)

(** ** Python strings *)

Example strip_hello : PyStr.strip " hello " = "hello"%string.
Proof. reflexivity. Qed.

(** ** The two halves of an attempt *)

Lemma pass_time_0 c : pass_time 0 c = c.
Proof. destruct c; unfold pass_time; simpl. f_equal; lia. Qed.

Lemma pass_time_add a b c : pass_time b (pass_time a c) = pass_time (a + b) c.
Proof. unfold pass_time; simpl. f_equal; lia. Qed.

Lemma prepare_eq cfg c :
  prepare cfg c =
  (payload cfg (with_system_prompt cfg (messages c)),
   prepared cfg c, prepare_events cfg c).
Proof.
  unfold prepare, prepared, prepare_events, send_time, budget_wait,
    with_system_prompt, payload, _check_rate_limit, _wait_for_rate_limit,
    _record_request, prune, oldest.
  unfold mbind, M_bind, mret, M_ret, time_time, get_request_times,
    set_request_times, get_messages, set_messages, emit, log, sleep.
  cbn [clock request_times messages].
  set (kept := filter _ (request_times c)).
  destruct (Z.of_nat (length kept) <? rate_limit_requests cfg); cbn.
  - destruct (lacks_system_prompt (messages c)); cbn;
      rewrite Z.add_0_r; reflexivity.
  - destruct kept as [|first rest]; cbn.
    + destruct (lacks_system_prompt (messages c)); cbn;
        rewrite Z.add_0_r; reflexivity.
    + destruct (0 <? rate_limit_window cfg - (clock c - py_min first rest));
        cbn; destruct (lacks_system_prompt (messages c)); cbn;
        rewrite ?Z.add_0_r; reflexivity.
Qed.

Lemma except_eq cfg n retry e c :
  except cfg n retry e c =
  match (react_exn cfg n e).2 with
  | Some r => (Some r, c, (react_exn cfg n e).1)
  | None => let '(r, c', evs) := retry c in (r, c', (react_exn cfg n e).1 ++ evs)
  end.
Proof.
  unfold except, react_exn, mbind, M_bind, mret, M_ret, log, emit.
  destruct e; cbn; destruct (n <? max_retries cfg); cbn;
    try reflexivity; destruct (retry c) as [[r c'] evs]; reflexivity.
Qed.

Lemma slept_react_exn cfg n e : slept (react_exn cfg n e).1 = 0.
Proof. destruct e; reflexivity. Qed.

Lemma conclude_eq cfg n retry o c :
  conclude cfg n retry o c =
  let c1 := pass_time (slept (react cfg n o).1) c in
  match (react cfg n o).2 with
  | Some r => (Some r, c1, (react cfg n o).1)
  | None => let '(r, c', evs) := retry c1 in (r, c', (react cfg n o).1 ++ evs)
  end.
Proof.
  cbv zeta. unfold conclude, react.
  destruct o as [e|status data error_text].
  - rewrite except_eq, slept_react_exn, pass_time_0. reflexivity.
  - destruct (status =? 200).
    + destruct (read_content data) as [[content|]|e].
      * unfold mbind, M_bind, log, emit.
        destruct (Py.strip content) as [text|e]; cbn.
        -- rewrite pass_time_0. reflexivity.
        -- rewrite except_eq, slept_react_exn, pass_time_0.
           destruct (react_exn cfg n e).2; [reflexivity|].
           destruct (retry c) as [[r c'] evs]. reflexivity.
      * cbn. rewrite pass_time_0. reflexivity.
      * rewrite except_eq, slept_react_exn, pass_time_0. reflexivity.
    + unfold mbind, M_bind, mret, M_ret, log, emit, sleep.
      destruct (status =? 429); destruct (n <? max_retries cfg); cbn;
        rewrite ?Z.add_0_r; fold (pass_time 0 c); rewrite ?pass_time_0;
        try reflexivity;
        unfold pass_time; destruct (retry _) as [[r c'] evs]; reflexivity.
Qed.

(** One attempt, then either the result or the rest of the call. *)
Lemma generate_response_fuel_S fuel cfg net n c :
  generate_response_fuel (S fuel) cfg net n c =
  match (react cfg n (outcome (net n))).2 with
  | Some r => (Some r, attempted cfg net n c, attempt_events cfg net n c)
  | None =>
      let '(r, c', rest) :=
        generate_response_fuel fuel cfg net (n + 1) (attempted cfg net n c) in
      (r, c', attempt_events cfg net n c ++ rest)
  end.
Proof.
  change (generate_response_fuel (S fuel) cfg net n c) with
    ((ok ← _check_rate_limit cfg;
      (if negb ok then _wait_for_rate_limit cfg else mret tt);;
      msgs ← get_messages;
      (if lacks_system_prompt msgs
       then set_messages (system_message cfg :: msgs) else mret tt);;
      msgs ← get_messages;
      _record_request;;
      response ← post
        {| url := openrouter_base_url cfg +:+ "/chat/completions";
           authorization := "Bearer " +:+ openrouter_api_key cfg;
           model := model_name cfg;
           request_messages := msgs;
           max_tokens := max_response_length cfg |} (net n);
      conclude cfg n (generate_response_fuel fuel cfg net (n + 1)) response) c).
  pose proof (prepare_eq cfg c) as Hprep. revert Hprep.
  unfold prepare, mbind, M_bind.
  destruct (_check_rate_limit cfg c) as [[ok c1] e1].
  destruct ((if negb ok then _wait_for_rate_limit cfg else mret ()) c1)
    as [[[] c2] e2].
  destruct (get_messages c2) as [[m3 c3] e3].
  destruct ((if lacks_system_prompt m3
             then set_messages (system_message cfg :: m3) else mret ()) c3)
    as [[[] c4] e4].
  destruct (get_messages c4) as [[m5 c5] e5].
  destruct (_record_request c5) as [[[] c6] e6].
  unfold mret, M_ret, post. rewrite conclude_eq. cbv zeta.
  intros [= Hreq Hc Hev]. rewrite app_nil_r in Hev.
  unfold attempted, attempt_events. rewrite <- pass_time_add.
  fold (payload cfg m5). rewrite Hreq.
  assert (Hclock : clock c6 = send_time cfg c) by (rewrite Hc; reflexivity).
  rewrite Hclock.
  change (Client (send_time cfg c + Z.max 0 (latency (net n)))
            (request_times c6) (messages c6))
    with (pass_time (Z.max 0 (latency (net n)))
            (Client (send_time cfg c) (request_times c6) (messages c6))).
  replace (Client (send_time cfg c) (request_times c6) (messages c6))
    with (prepared cfg c) by (rewrite <- Hc, <- Hclock; destruct c6; reflexivity).
  destruct (react cfg n (outcome (net n))).2.
  - f_equal. rewrite <- Hev, <- !app_assoc. reflexivity.
  - destruct (generate_response_fuel fuel cfg net (n + 1) _) as [[r c'] rest].
    f_equal. rewrite <- Hev, <- !app_assoc. reflexivity.
Qed.

Lemma react_exn_retry cfg n e :
  (react_exn cfg n e).2 = None -> n < max_retries cfg.
Proof.
  destruct e; cbn; destruct (Z.ltb_spec n (max_retries cfg));
    (lia || discriminate).
Qed.

(** An attempt calls the method again only below the retry bound. *)
Lemma react_retry cfg n o : (react cfg n o).2 = None -> n < max_retries cfg.
Proof.
  unfold react. destruct o as [e|status data error_text].
  - apply react_exn_retry.
  - destruct (status =? 200).
    + destruct (read_content data) as [[content|]|e];
        [destruct (Py.strip content)| |]; cbn;
        try discriminate; apply react_exn_retry.
    + destruct (status =? 429); destruct (Z.ltb_spec n (max_retries cfg));
        cbn; (lia || discriminate).
Qed.

(** ** The recursion of the source, without fuel *)

Section Attempts.

Variable cfg : BotConfig.
Variable net : network.

(** Fuel beyond the retries left changes nothing. *)
Lemma generate_response_fuel_enough fuel : forall n c,
  (Z.to_nat (max_retries cfg - n) < fuel)%nat ->
  generate_response_fuel fuel cfg net n c = generate_response cfg net n c.
Proof.
  unfold generate_response.
  induction fuel as [|fuel IH]; intros n c Hfuel; [lia|].
  rewrite !generate_response_fuel_S.
  destruct (react cfg n (outcome (net n))).2 as [r|] eqn:Hverdict; [reflexivity|].
  pose proof (react_retry _ _ _ Hverdict) as Hlt.
  rewrite IH by lia.
  replace (Z.to_nat (max_retries cfg - n))
    with (S (Z.to_nat (max_retries cfg - (n + 1)))) by lia.
  reflexivity.
Qed.

(** [generate_response(messages, n)] makes one attempt and then returns
    or calls [generate_response(messages, n + 1)]. *)
Lemma generate_response_unfold n c :
  generate_response cfg net n c =
  match (react cfg n (outcome (net n))).2 with
  | Some r => (Some r, attempted cfg net n c, attempt_events cfg net n c)
  | None =>
      let '(r, c', rest) :=
        generate_response cfg net (n + 1) (attempted cfg net n c) in
      (r, c', attempt_events cfg net n c ++ rest)
  end.
Proof.
  unfold generate_response at 1. rewrite generate_response_fuel_S.
  destruct (react cfg n (outcome (net n))).2 as [r|] eqn:Hverdict; [reflexivity|].
  pose proof (react_retry _ _ _ Hverdict) as Hlt.
  rewrite generate_response_fuel_enough by lia. reflexivity.
Qed.

Variable P : Z -> client -> option (option string) * client * list event -> Prop.

Hypothesis P_return : forall n c r,
  (react cfg n (outcome (net n))).2 = Some r ->
  P n c (Some r, attempted cfg net n c, attempt_events cfg net n c).

Hypothesis P_retry : forall n c r c' rest,
  (react cfg n (outcome (net n))).2 = None ->
  n < max_retries cfg ->
  generate_response cfg net (n + 1) (attempted cfg net n c) = (r, c', rest) ->
  P (n + 1) (attempted cfg net n c) (r, c', rest) ->
  P n c (r, c', attempt_events cfg net n c ++ rest).

(** Induction over the attempts of a call. *)
Lemma generate_response_ind n c : P n c (generate_response cfg net n c).
Proof.
  remember (Z.to_nat (max_retries cfg - n)) as k eqn:Hk.
  revert n c Hk. induction k as [|k IH]; intros n c Hk;
    rewrite generate_response_unfold;
    destruct (react cfg n (outcome (net n))).2 as [r|] eqn:Hverdict;
    try (apply P_return, Hverdict);
    pose proof (react_retry _ _ _ Hverdict) as Hlt; [lia|].
  specialize (IH (n + 1) (attempted cfg net n c) ltac:(lia)).
  destruct (generate_response cfg net (n + 1) _) as [[r c'] rest] eqn:Hrun.
  apply P_retry; auto.
Qed.

End Attempts.


(** A caller's call is a call of the method on the caller's list. *)
Lemma complete_eq cfg net msgs c :
  complete cfg net msgs c
  = generate_response cfg net 0 (Client (clock c) (request_times c) msgs).
Proof.
  unfold complete, mbind, M_bind, set_messages.
  destruct (generate_response cfg net 0 _) as [[r c'] evs]. reflexivity.
Qed.

(** ** Traces of one attempt *)

Lemma posts_app a b : posts (a ++ b) = posts a ++ posts b.
Proof. apply omap_app. Qed.

Lemma posts_quiet evs : forallb quiet evs = true -> posts evs = [].
Proof.
  induction evs as [|e evs IH]; [reflexivity|].
  destruct e; cbn; try discriminate; exact IH.
Qed.

Lemma budget_wait_quiet cfg now kept :
  forallb quiet (budget_wait cfg now kept) = true.
Proof.
  unfold budget_wait.
  destruct (_ <? rate_limit_requests cfg); [reflexivity|].
  destruct (oldest kept); [|reflexivity].
  destruct (0 <? _); reflexivity.
Qed.

Lemma react_exn_quiet cfg n e : forallb quiet (react_exn cfg n e).1 = true.
Proof. destruct e; reflexivity. Qed.

Lemma react_quiet cfg n o : forallb quiet (react cfg n o).1 = true.
Proof.
  unfold react. destruct o as [e|status data error_text].
  - apply react_exn_quiet.
  - destruct (status =? 200).
    + destruct (read_content data) as [[content|]|e];
        [destruct (Py.strip content)| |]; cbn;
        try reflexivity; apply react_exn_quiet.
    + destruct (status =? 429); destruct (n <? max_retries cfg); reflexivity.
Qed.

Lemma posts_prepare_events cfg c : posts (prepare_events cfg c) = [].
Proof.
  unfold prepare_events. cbn. rewrite posts_app.
  rewrite (posts_quiet _ (budget_wait_quiet _ _ _)). reflexivity.
Qed.

Lemma posts_attempt_events cfg net n c :
  posts (attempt_events cfg net n c) =
  [(send_time cfg c, payload cfg (with_system_prompt cfg (messages c)))].
Proof.
  unfold attempt_events. rewrite posts_app, posts_prepare_events. cbn.
  rewrite (posts_quiet _ (react_quiet _ _ _)). reflexivity.
Qed.

(** Every call issues its first request at [send_time]. *)
Lemma first_attempt_generate_response cfg net n c :
  first_attempt (generate_response cfg net n c).2 = Some (send_time cfg c).
Proof.
  rewrite generate_response_unfold. unfold first_attempt.
  destruct (react cfg n (outcome (net n))).2.
  - cbn [snd]. rewrite posts_attempt_events. reflexivity.
  - destruct (generate_response cfg net (n + 1) _) as [[r c'] rest]. cbn [snd].
    rewrite posts_app, posts_attempt_events. reflexivity.
Qed.

(** ** Exhaustion of the retries *)

Lemma react_exn_retryable cfg n e :
  (n < max_retries cfg /\ (react_exn cfg n e).2 = None)
  \/ (max_retries cfg <= n
      /\ exists text, (react_exn cfg n e).2 = Some (Some text)
                      /\ degraded_message text).
Proof.
  destruct (Z.ltb_spec n (max_retries cfg)) as [Hlt|Hge]; [left|right];
    (split; [assumption|]).
  - destruct e; cbn; destruct (Z.ltb_spec n (max_retries cfg));
      (reflexivity || lia).
  - destruct e; cbn; destruct (Z.ltb_spec n (max_retries cfg)); try lia;
      eexists; (split; [reflexivity|]);
      first [apply degraded_timed_out
            |apply (degraded_unexpected (KeyError text))
            |apply (degraded_unexpected (TypeError text))
            |apply (degraded_unexpected (AttributeError text))
            |apply (degraded_unexpected (IndexError text))
            |apply (degraded_unexpected (ClientError text))].
Qed.

(** A retryable failure is retried below the bound and turned into a
    degraded-service text at the bound. *)
Lemma react_retryable cfg n o :
  retryable_failure o ->
  (n < max_retries cfg /\ (react cfg n o).2 = None)
  \/ (max_retries cfg <= n
      /\ exists text, (react cfg n o).2 = Some (Some text)
                      /\ degraded_message text).
Proof.
  destruct o as [e|status data error_text]; cbn; intros Hfail.
  - apply react_exn_retryable.
  - destruct (Z.eqb_spec status 200) as [|_]; [contradiction|].
    destruct (status =? 429);
      destruct (Z.ltb_spec n (max_retries cfg)) as [Hlt|Hge];
      [left|right|left|right]; (split; [assumption|]); try reflexivity;
      eexists; (split; [reflexivity|]); constructor.
Qed.

Lemma always_failing_run cfg net :
  (forall k, retryable_failure (outcome (net k))) ->
  forall n c, n <= max_retries cfg ->
  exists text,
    (generate_response cfg net n c).1.1 = Some (Some text)
    /\ degraded_message text
    /\ Z.of_nat (attempts_made (generate_response cfg net n c).2)
       = max_retries cfg - n + 1.
Proof.
  intros Hfail n c.
  apply (generate_response_ind cfg net (fun n _ run =>
    n <= max_retries cfg ->
    exists text, run.1.1 = Some (Some text) /\ degraded_message text
      /\ Z.of_nat (attempts_made run.2) = max_retries cfg - n + 1));
    clear n c.
  - intros n c r Hverdict Hn.
    destruct (react_retryable cfg n _ (Hfail n)) as [[_ Hnone]|[Hge (text & Hsome & Hdeg)]];
      [congruence|].
    exists text. cbn [fst snd]. unfold attempts_made.
    rewrite posts_attempt_events. cbn. split; [congruence|]. split; [assumption|lia].
  - intros n c r c' rest _ Hlt _ IH _.
    destruct (IH ltac:(lia)) as (text & Hres & Hdeg & Hcount).
    exists text. cbn [fst snd] in *. unfold attempts_made in *.
    rewrite posts_app, posts_attempt_events, length_app. cbn [length].
    split; [assumption|]. split; [assumption|lia].
Qed.

(** C2: with [max_retries = 3], a call whose every attempt meets a
    retryable failure (an exception of the transport, a timeout, a 429
    or any other status than 200) makes exactly four attempts and then
    returns, as an ordinary value, one of the degraded-service texts. *)
Theorem C2_exhaustion_after_four_attempts cfg net c :
  max_retries cfg = 3 ->
  (forall k, retryable_failure (outcome (net k))) ->
  exists text c' evs,
    generate_response cfg net 0 c = (Some (Some text), c', evs)
    /\ degraded_message text
    /\ attempts_made evs = 4%nat.
Proof.
  intros Hmax Hfail.
  destruct (always_failing_run cfg net Hfail 0 c ltac:(lia))
    as (text & Hres & Hdeg & Hcount).
  destruct (generate_response cfg net 0 c) as [[r c'] evs]. cbn [fst snd] in *.
  exists text, c', evs. subst r. split; [reflexivity|].
  split; [assumption|lia].
Qed.

Lemma C2_exhaustion_witness :
  exists text c' evs,
    generate_response Examples.cfg Examples.always_429 0 Examples.fresh
    = (Some (Some text), c', evs)
    /\ degraded_message text
    /\ attempts_made evs = 4%nat.
Proof.
  apply (C2_exhaustion_after_four_attempts Examples.cfg Examples.always_429
           Examples.fresh).
  - reflexivity.
  - intros k. cbn. lia.
Defined.

(** ** The system turn *)

Lemma lacks_system_prompt_spec msgs :
  lacks_system_prompt msgs = false <-> starts_with_system msgs.
Proof.
  unfold starts_with_system, is_system. destruct msgs as [|first rest]; cbn.
  - split; [discriminate|]. intros (? & ? & ? & _). discriminate.
  - rewrite negb_false_iff, bool_decide_eq_true. split.
    + intros H. exists first, rest. auto.
    + intros (? & ? & [= <- <-] & H). exact H.
Qed.

Lemma system_message_is_system cfg : is_system (system_message cfg).
Proof. unfold is_system, system_message. apply lookup_insert_eq. Qed.

Lemma with_system_prompt_starts cfg msgs :
  starts_with_system (with_system_prompt cfg msgs).
Proof.
  unfold with_system_prompt.
  destruct (lacks_system_prompt msgs) eqn:Hlacks.
  - exists (system_message cfg), msgs. split; [reflexivity|].
    apply system_message_is_system.
  - apply lacks_system_prompt_spec, Hlacks.
Qed.

(** Inserting the system turn a second time does nothing. *)
Lemma with_system_prompt_idem cfg msgs :
  with_system_prompt cfg (with_system_prompt cfg msgs)
  = with_system_prompt cfg msgs.
Proof.
  unfold with_system_prompt at 1.
  destruct (lacks_system_prompt_spec (with_system_prompt cfg msgs)) as [_ H].
  rewrite (H (with_system_prompt_starts cfg msgs)). reflexivity.
Qed.

Lemma messages_attempted cfg net n c :
  messages (attempted cfg net n c) = with_system_prompt cfg (messages c).
Proof. reflexivity. Qed.

(** Every request of a call carries the caller's list with the system
    turn in front, the same at every attempt. *)
Lemma requests_of_call cfg net n c t req :
  In (t, req) (posts (generate_response cfg net n c).2) ->
  request_messages req = with_system_prompt cfg (messages c).
Proof.
  revert t req.
  apply (generate_response_ind cfg net (fun _ c run => forall t req,
    In (t, req) (posts run.2) ->
    request_messages req = with_system_prompt cfg (messages c))); clear n c.
  - intros n c r _ t req. cbn [snd]. rewrite posts_attempt_events.
    intros [[= <- <-]|[]]. reflexivity.
  - intros n c r c' rest _ _ _ IH t req. cbn [snd] in *.
    rewrite posts_app, posts_attempt_events. intros [[= <- <-]|Hin].
    + reflexivity.
    + rewrite (IH _ _ Hin), messages_attempted. apply with_system_prompt_idem.
Qed.

(** The caller's list object after the call. *)
Lemma messages_after_call cfg net n c :
  messages (generate_response cfg net n c).1.2
  = with_system_prompt cfg (messages c).
Proof.
  apply (generate_response_ind cfg net (fun _ c run =>
    messages run.1.2 = with_system_prompt cfg (messages c))); clear n c.
  - intros n c r _. reflexivity.
  - intros n c r c' rest _ _ _ IH. cbn [fst snd] in *.
    rewrite IH, messages_attempted. apply with_system_prompt_idem.
Qed.

Lemma count_system_cons m msgs :
  count_system (m :: msgs)
  = ((if decide (is_system m) then 1 else 0) + count_system msgs)%nat.
Proof.
  unfold count_system. rewrite filter_cons.
  destruct (decide (is_system m)); reflexivity.
Qed.

(** C3, as amended: every request of a call starts with a system turn;
    when the caller's list already starts with one the request is that
    list unchanged; otherwise it is that list with the one configured
    system turn in front, at the first attempt and at every retry alike;
    and the request holds exactly one system turn whenever the caller's
    list holds none after its first element. *)
Theorem C3_system_turn_first cfg net n c :
  (1 <= attempts_made (generate_response cfg net n c).2)%nat
  /\ forall t req,
       In (t, req) (posts (generate_response cfg net n c).2) ->
       starts_with_system (request_messages req)
       /\ (starts_with_system (messages c) ->
           request_messages req = messages c)
       /\ (~ starts_with_system (messages c) ->
           request_messages req = system_message cfg :: messages c)
       /\ (count_system (tail (messages c)) = 0%nat ->
           count_system (request_messages req) = 1%nat).
Proof.
  split.
  - pose proof (first_attempt_generate_response cfg net n c) as H.
    unfold first_attempt, attempts_made in *.
    destruct (posts _); [discriminate|cbn; lia].
  - intros t req Hin. rewrite (requests_of_call _ _ _ _ _ _ Hin).
    split; [apply with_system_prompt_starts|].
    unfold with_system_prompt.
    destruct (lacks_system_prompt (messages c)) eqn:Hlacks.
    + assert (Hnot : ~ starts_with_system (messages c)).
      { intros H. apply lacks_system_prompt_spec in H. congruence. }
      split; [intros H; contradiction|]. split; [reflexivity|].
      intros Htail. rewrite count_system_cons.
      rewrite decide_True by apply system_message_is_system.
      destruct (messages c) as [|first rest]; [reflexivity|].
      cbn [tail] in Htail. rewrite count_system_cons, Htail.
      rewrite decide_False; [reflexivity|].
      intros Hsys. apply Hnot. exists first, rest. auto.
    + assert (Hyes : starts_with_system (messages c))
        by (apply lacks_system_prompt_spec, Hlacks).
      split; [reflexivity|]. split; [intros H; contradiction|].
      destruct Hyes as (first & rest & -> & Hsys). cbn [tail].
      intros Htail. rewrite count_system_cons, Htail.
      rewrite decide_True by assumption. reflexivity.
Qed.

Lemma C3_system_turn_first_witness :
  In (0, payload Examples.cfg [system_message Examples.cfg; Examples.user_hi])
     (posts (generate_response Examples.cfg Examples.hello 0 Examples.fresh).2)
  /\ ~ starts_with_system (messages Examples.fresh)
  /\ count_system (tail (messages Examples.fresh)) = 0%nat
  /\ request_messages
       (payload Examples.cfg [system_message Examples.cfg; Examples.user_hi])
     = system_message Examples.cfg :: messages Examples.fresh
  /\ count_system
       (request_messages
          (payload Examples.cfg [system_message Examples.cfg; Examples.user_hi]))
     = 1%nat.
Proof.
  assert (Hin : In (0, payload Examples.cfg
                         [system_message Examples.cfg; Examples.user_hi])
                   (posts (generate_response Examples.cfg Examples.hello 0
                             Examples.fresh).2))
    by (vm_compute; left; reflexivity).
  assert (Hnot : ~ starts_with_system (messages Examples.fresh)).
  { intros H. apply lacks_system_prompt_spec in H. vm_compute in H.
    discriminate. }
  assert (Htail : count_system (tail (messages Examples.fresh)) = 0%nat)
    by reflexivity.
  destruct (C3_system_turn_first Examples.cfg Examples.hello 0 Examples.fresh)
    as [_ H].
  destruct (H _ _ Hin) as (_ & _ & Hprepend & Hone).
  split; [exact Hin|]. split; [exact Hnot|]. split; [exact Htail|].
  split; [exact (Hprepend Hnot)|exact (Hone Htail)].
Defined.

(** C3, as stated, fails: a caller's list whose system turn is not its
    first element is sent with two system turns. *)
Lemma C3_counterexample_two_system_turns :
  posts (generate_response Examples.cfg Examples.hello 0 Examples.late_system).2
  = [(0, payload Examples.cfg
           [system_message Examples.cfg; Examples.user_hi;
            Examples.turn "system" "Speak like a pirate."])]
  /\ count_system
       [system_message Examples.cfg; Examples.user_hi;
        Examples.turn "system" "Speak like a pirate."] = 2%nat.
Proof. split; vm_compute; reflexivity. Qed.

(** C10: when the caller's list does not start with a system turn, the
    call leaves that very list one element longer, the system turn
    inserted at index 0; when it starts with a system turn, the call
    leaves it as it was. *)
Theorem C10_caller_list_mutated_in_place cfg net n c :
  (~ starts_with_system (messages c) ->
   messages (generate_response cfg net n c).1.2
   = system_message cfg :: messages c
   /\ length (messages (generate_response cfg net n c).1.2)
      = S (length (messages c)))
  /\ (starts_with_system (messages c) ->
      messages (generate_response cfg net n c).1.2 = messages c).
Proof.
  rewrite messages_after_call. unfold with_system_prompt.
  destruct (lacks_system_prompt (messages c)) eqn:Hlacks.
  - split; [intros _; split; reflexivity|].
    intros H. apply lacks_system_prompt_spec in H. congruence.
  - split; [|reflexivity].
    intros H. contradict H. apply lacks_system_prompt_spec, Hlacks.
Qed.

Lemma C10_caller_list_mutated_witness :
  ~ starts_with_system (messages Examples.fresh)
  /\ messages (generate_response Examples.cfg Examples.hello 0 Examples.fresh).1.2
     = system_message Examples.cfg :: messages Examples.fresh
  /\ length (messages (generate_response Examples.cfg Examples.hello 0
                         Examples.fresh).1.2)
     = S (length (messages Examples.fresh)).
Proof.
  assert (Hnot : ~ starts_with_system (messages Examples.fresh)).
  { intros H. apply lacks_system_prompt_spec in H. vm_compute in H.
    discriminate. }
  split; [exact Hnot|].
  apply (C10_caller_list_mutated_in_place Examples.cfg Examples.hello 0
           Examples.fresh), Hnot.
Defined.

(** ** Order of the steps of an attempt *)

Lemma run_phases_app p a b :
  run_phases p (a ++ b) = q ← run_phases p a; run_phases q b.
Proof.
  revert p. induction a as [|e a IH]; intros p; [reflexivity|].
  cbn. destruct (phase_step p e); [apply IH|reflexivity].
Qed.

Lemma run_phases_quiet p evs :
  p = Checked \/ p = Posted ->
  forallb quiet evs = true -> run_phases p evs = Some p.
Proof.
  intros Hp. induction evs as [|e evs IH]; [reflexivity|].
  destruct e; cbn; try discriminate; destruct Hp as [-> | ->]; exact IH.
Qed.

Lemma run_phases_attempt_events cfg net n c p :
  p = Start \/ p = Posted ->
  run_phases p (attempt_events cfg net n c) = Some Posted.
Proof.
  intros Hp. unfold attempt_events, prepare_events.
  assert (Hfirst : forall k o rest,
            run_phases p (CheckLimit (clock c) k o :: rest) = run_phases Checked rest)
    by (intros; destruct Hp as [-> | ->]; reflexivity).
  cbn [app]. rewrite Hfirst, <- app_assoc, run_phases_app.
  rewrite (run_phases_quiet Checked) by (auto using budget_wait_quiet).
  cbn. rewrite Z.eqb_refl.
  apply run_phases_quiet; auto using react_quiet.
Qed.

Lemma attempt_events_shape cfg net n c :
  attempt_events cfg net n c =
  let kept := prune cfg (clock c) (request_times c) in
  [CheckLimit (clock c) kept (Z.of_nat (length kept) <? rate_limit_requests cfg)]
  ++ budget_wait cfg (clock c) kept
  ++ [RecordRequest (send_time cfg c);
      Post (send_time cfg c) (payload cfg (with_system_prompt cfg (messages c)))]
  ++ (react cfg n (outcome (net n))).1.
Proof.
  unfold attempt_events, prepare_events. cbn [app].
  rewrite <- app_assoc. reflexivity.
Qed.

Lemma recorded_quiet evs : forallb quiet evs = true -> omap recorded evs = [].
Proof.
  induction evs as [|e evs IH]; [reflexivity|].
  destruct e; cbn; try discriminate; exact IH.
Qed.

Lemma checked_quiet evs : forallb quiet evs = true -> omap checked evs = [].
Proof.
  induction evs as [|e evs IH]; [reflexivity|].
  destruct e; cbn; try discriminate; exact IH.
Qed.

Lemma recorded_attempt_events cfg net n c :
  omap recorded (attempt_events cfg net n c) = [send_time cfg c].
Proof.
  rewrite attempt_events_shape. cbv zeta. rewrite !omap_app.
  rewrite (recorded_quiet _ (budget_wait_quiet _ _ _)).
  rewrite (recorded_quiet _ (react_quiet _ _ _)). reflexivity.
Qed.

Lemma checked_attempt_events cfg net n c :
  omap checked (attempt_events cfg net n c) = [clock c].
Proof.
  rewrite attempt_events_shape. cbv zeta. rewrite !omap_app.
  rewrite (checked_quiet _ (budget_wait_quiet _ _ _)).
  rewrite (checked_quiet _ (react_quiet _ _ _)). reflexivity.
Qed.

(** After an attempt the ledger ends with the timestamp of that attempt,
    whatever the response was. *)
Lemma request_times_attempted cfg net n c :
  request_times (attempted cfg net n c)
  = prune cfg (clock c) (request_times c) ++ [send_time cfg c].
Proof. reflexivity. Qed.

(** ** The configured reply length *)










(** ** The request budget *)

Lemma slept_nonneg evs : 0 <= slept evs.
Proof. induction evs as [|[] evs IH]; cbn; lia. Qed.

Lemma send_time_ge cfg c : clock c <= send_time cfg c.
Proof. unfold send_time. pose proof (slept_nonneg (budget_wait cfg (clock c)
  (prune cfg (clock c) (request_times c)))). lia. Qed.

Lemma clock_attempted cfg net n c :
  send_time cfg c <= clock (attempted cfg net n c).
Proof.
  unfold attempted, pass_time, prepared. cbn [clock].
  pose proof (slept_nonneg (react cfg n (outcome (net n))).1). lia.
Qed.

Lemma In_prune cfg now l t :
  In t (prune cfg now l) <-> In t l /\ now - t < rate_limit_window cfg.
Proof.
  unfold prune. rewrite <- !list_elem_of_In, list_elem_of_filter. tauto.
Qed.

Lemma prune_all cfg now l :
  Forall (fun e => now - e < rate_limit_window cfg) l -> prune cfg now l = l.
Proof.
  unfold prune. induction 1 as [|e l He _ IH]; [reflexivity|].
  rewrite filter_cons, decide_True by assumption. f_equal. exact IH.
Qed.

Lemma py_min_le first rest : Forall (fun e => py_min first rest <= e) (first :: rest).
Proof.
  unfold py_min. induction rest as [|x rest IH]; cbn.
  - constructor; [lia|constructor].
  - inversion IH as [|? ? Hfirst Hrest]; subst.
    constructor; [lia|]. constructor; [lia|].
    eapply Forall_impl; [exact Hrest|]. cbn. intros; lia.
Qed.

Lemma py_min_In first rest : In (py_min first rest) (first :: rest).
Proof.
  unfold py_min. induction rest as [|x rest IH]; cbn; [auto|].
  destruct (Z.min_spec x (foldr Z.min first rest)) as [[_ ->]|[_ ->]]; [auto|].
  destruct IH as [<-|IH]; auto.
Qed.

(** The oldest entry is an entry and no entry is older. *)
Lemma oldest_spec l old :
  oldest l = Some old -> In old l /\ Forall (fun e => old <= e) l.
Proof.
  destruct l as [|first rest]; [discriminate|]. intros [= <-].
  split; [apply py_min_In|apply py_min_le].
Qed.

(** Over budget with an entry left, the wait is the deficit, and the
    deficit is positive. *)
Lemma budget_wait_over cfg now l old :
  rate_limit_requests cfg <= Z.of_nat (length (prune cfg now l)) ->
  oldest (prune cfg now l) = Some old ->
  let deficit := rate_limit_window cfg - (now - old) in
  0 < deficit
  /\ budget_wait cfg now (prune cfg now l)
     = [Log INFO (RateLimitReached deficit); Sleep deficit].
Proof.
  intros Hover Hold deficit.
  assert (Hpos : 0 < deficit).
  { apply oldest_spec in Hold as [Hin _]. apply In_prune in Hin.
    unfold deficit. lia. }
  split; [exact Hpos|]. unfold budget_wait. rewrite Hold.
  destruct (Z.ltb_spec (Z.of_nat (length (prune cfg now l)))
              (rate_limit_requests cfg)); [lia|].
  fold deficit. destruct (Z.ltb_spec 0 deficit); [reflexivity|lia].
Qed.

Lemma budget_wait_under cfg now kept :
  Z.of_nat (length kept) < rate_limit_requests cfg ->
  budget_wait cfg now kept = [].
Proof.
  intros Hunder. unfold budget_wait.
  destruct (Z.ltb_spec (Z.of_nat (length kept)) (rate_limit_requests cfg));
    [reflexivity|lia].
Qed.

Lemma budget_inv_weaken cfg k t1 c :
  budget_inv cfg (S k) t1 c -> budget_inv cfg k t1 c.
Proof. unfold budget_inv. intuition lia. Qed.

Lemma budget_inv_attempted cfg net n k t1 c :
  budget_inv cfg k t1 c -> budget_inv cfg (S k) t1 (attempted cfg net n c).
Proof.
  intros [Hclock Hinv].
  pose proof (send_time_ge cfg c) as Hsend.
  pose proof (clock_attempted cfg net n c) as Hafter.
  split; [lia|].
  destruct (Z.le_gt_cases (t1 + rate_limit_window cfg) (clock c)) as [Hover|Hin];
    [left; lia|].
  destruct Hinv as [Hover|(Hmem & Hall & Hlen)]; [lia|]. right.
  rewrite request_times_attempted, prune_all.
  - split; [apply in_or_app; auto|]. split.
    + apply Forall_app. split; [exact Hall|]. constructor; [lia|constructor].
    + rewrite length_app. cbn. lia.
  - eapply Forall_impl; [exact Hall|]. cbn. intros; lia.
Qed.

(** A whole call adds at least one entry to a ledger whose window is
    still open. *)
Lemma budget_inv_call cfg net t1 n c :
  forall k, budget_inv cfg k t1 c ->
  budget_inv cfg (S k) t1 (generate_response cfg net n c).1.2.
Proof.
  apply (generate_response_ind cfg net (fun _ c run => forall k,
    budget_inv cfg k t1 c -> budget_inv cfg (S k) t1 run.1.2)); clear n c.
  - intros n c r _ k Hinv. cbn [fst snd]. apply budget_inv_attempted, Hinv.
  - intros n c r c' rest _ _ _ IH k Hinv. cbn [fst snd] in *.
    apply budget_inv_weaken, IH, budget_inv_attempted, Hinv.
Qed.

(** On an empty ledger the first attempt goes out at once and opens the
    window. *)
Lemma first_call cfg net n c :
  request_times c = [] ->
  send_time cfg c = clock c
  /\ budget_inv cfg 1 (clock c) (generate_response cfg net n c).1.2.
Proof.
  intros Hempty.
  assert (Hsend : send_time cfg c = clock c).
  { unfold send_time, prune. rewrite Hempty, filter_nil.
    unfold budget_wait. cbn [length oldest].
    destruct (_ <? rate_limit_requests cfg); cbn [slept]; lia. }
  split; [exact Hsend|].
  assert (Hone : budget_inv cfg 1 (clock c) (attempted cfg net n c)).
  { pose proof (clock_attempted cfg net n c). split; [lia|]. right.
    rewrite request_times_attempted, Hempty, Hsend.
    unfold prune. rewrite filter_nil. cbn [app In length].
    split; [auto|]. split; [|lia]. constructor; [lia|constructor]. }
  rewrite generate_response_unfold.
  destruct (react cfg n (outcome (net n))).2; [exact Hone|].
  pose proof (budget_inv_call cfg net (clock c) (n + 1) _ _ Hone) as Hrest.
  destruct (generate_response cfg net (n + 1) _) as [[r c'] rest].
  apply budget_inv_weaken, Hrest.
Qed.

(** With two entries in an open window and a budget of two, the next
    attempt waits for the window to close. *)
Lemma third_call cfg t1 c :
  rate_limit_requests cfg = 2 ->
  budget_inv cfg 2 t1 c ->
  t1 + rate_limit_window cfg <= send_time cfg c.
Proof.
  intros Hbudget [Hclock Hinv].
  pose proof (send_time_ge cfg c) as Hsend.
  destruct (Z.le_gt_cases (t1 + rate_limit_window cfg) (clock c)) as [Hover|Hin];
    [lia|].
  destruct Hinv as [Hover|(Hmem & Hall & Hlen)]; [lia|].
  assert (Hkept : prune cfg (clock c) (request_times c) = request_times c).
  { apply prune_all. eapply Forall_impl; [exact Hall|]. cbn. intros; lia. }
  unfold send_time. rewrite Hkept.
  destruct (oldest (request_times c)) as [old|] eqn:Hold.
  - pose proof (oldest_spec _ _ Hold) as [Hold_in Hold_le].
    assert (old = t1).
    { rewrite Forall_forall in Hall, Hold_le.
      pose proof (Hall old ltac:(apply list_elem_of_In; exact Hold_in)).
      pose proof (Hold_le t1 ltac:(apply list_elem_of_In; exact Hmem)). lia. }
    subst old. rewrite <- Hkept in Hold.
    destruct (budget_wait_over cfg (clock c) (request_times c) t1) as [Hpos Hwait];
      [rewrite Hkept; lia|exact Hold|].
    rewrite Hkept in Hwait. rewrite Hwait. cbn. lia.
  - destruct (request_times c); [cbn in Hlen; lia|discriminate].
Qed.

Lemma budget_inv_next_call cfg k t1 c idle msgs :
  0 <= idle ->
  budget_inv cfg k t1 c ->
  budget_inv cfg k t1
    (Client (clock (pass_time idle c)) (request_times (pass_time idle c)) msgs).
Proof. unfold budget_inv, pass_time. cbn. intuition lia. Qed.

Lemma follows_budget_quiet cfg ledger evs rest :
  forallb quiet evs = true ->
  follows_budget cfg ledger (evs ++ rest) <-> follows_budget cfg ledger rest.
Proof.
  induction evs as [|e evs IH]; [reflexivity|].
  destruct e; cbn; try discriminate; exact IH.
Qed.

Lemma follows_budget_attempt cfg net n c rest :
  follows_budget cfg (request_times (attempted cfg net n c)) rest ->
  follows_budget cfg (request_times c) (attempt_events cfg net n c ++ rest).
Proof.
  intros Hrest. rewrite attempt_events_shape. cbv zeta.
  cbn [app follows_budget]. fold (send_time cfg c).
  split; [reflexivity|]. split; [reflexivity|]. split.
  - do 2 eexists. rewrite <- !app_assoc. reflexivity.
  - rewrite <- !app_assoc.
    rewrite follows_budget_quiet by apply budget_wait_quiet.
    cbn [app follows_budget].
    rewrite follows_budget_quiet by apply react_quiet.
    exact Hrest.
Qed.

(** Every attempt of a call, the retries included, keeps to the budget
    discipline. *)
Lemma follows_budget_call cfg net n c :
  follows_budget cfg (request_times c) (generate_response cfg net n c).2.
Proof.
  apply (generate_response_ind cfg net (fun _ c run =>
    follows_budget cfg (request_times c) run.2)); clear n c.
  - intros n c r _. cbn [snd].
    rewrite <- (app_nil_r (attempt_events cfg net n c)).
    apply follows_budget_attempt. exact I.
  - intros n c r c' rest _ _ _ IH. cbn [snd] in *.
    apply follows_budget_attempt, IH.
Qed.

(** The budget discipline holds from any event of a trace on, for the
    ledger of that moment. *)
Lemma follows_budget_at cfg : forall pre ledger e post,
  follows_budget cfg ledger (pre ++ e :: post) ->
  exists ledger', follows_budget cfg ledger' (e :: post).
Proof.
  induction pre as [|x pre IH]; intros ledger e post H.
  - exists ledger. exact H.
  - destruct x; cbn [app follows_budget] in H;
      try (eapply IH; exact H).
    destruct H as (_ & _ & _ & H). eapply IH; exact H.
Qed.

(** With a budget of at least one request, a ledger at or over budget
    has an oldest entry. *)
Lemma oldest_over_budget cfg kept :
  1 <= rate_limit_requests cfg ->
  rate_limit_requests cfg <= Z.of_nat (length kept) ->
  exists old, oldest kept = Some old.
Proof.
  intros Hbudget Hover. destruct kept as [|first rest].
  - cbn in Hover. lia.
  - eexists. reflexivity.
Qed.

(** C6, as amended: every attempt of every call first prunes the ledger
    to the entries younger than the window and compares their number
    with the budget, then waits as the pruned ledger demands, then
    records and sends.  The wait is empty under budget.  With a budget
    of at least one request, a ledger at or over budget has an oldest
    entry and the wait is a sleep of exactly the deficit,
    window - (now - oldest), which is positive: in the trace of every
    call, a check that fails is followed by that sleep, and the request
    goes out when the oldest entry is one window old.  Hence, with a
    budget of two and a window of sixty, the third of three calls in a
    row on a fresh client issues its first request no sooner than sixty
    after the first request of the first call. *)
Theorem C6_budget_check_and_wait :
  (forall cfg net n c,
     follows_budget cfg (request_times c) (generate_response cfg net n c).2)
  /\ (forall cfg now ledger,
       let kept := prune cfg now ledger in
       (forall t, In t kept
                  <-> In t ledger /\ now - t < rate_limit_window cfg)
       /\ (Z.of_nat (length kept) < rate_limit_requests cfg ->
           budget_wait cfg now kept = [])
       /\ (1 <= rate_limit_requests cfg ->
           rate_limit_requests cfg <= Z.of_nat (length kept) ->
           exists old,
             oldest kept = Some old
             /\ In old kept /\ Forall (fun e => old <= e) kept
             /\ 0 < rate_limit_window cfg - (now - old)
             /\ budget_wait cfg now kept
                = [Log INFO (RateLimitReached
                               (rate_limit_window cfg - (now - old)));
                   Sleep (rate_limit_window cfg - (now - old))]))
  /\ (forall cfg net n c pre now kept post,
       1 <= rate_limit_requests cfg ->
       (generate_response cfg net n c).2
       = pre ++ CheckLimit now kept false :: post ->
       exists old req post',
         oldest kept = Some old
         /\ 0 < rate_limit_window cfg - (now - old)
         /\ post
            = [Log INFO (RateLimitReached
                           (rate_limit_window cfg - (now - old)));
               Sleep (rate_limit_window cfg - (now - old));
               RecordRequest (old + rate_limit_window cfg);
               Post (old + rate_limit_window cfg) req] ++ post')
  /\ (forall cfg net1 net2 net3 msgs1 msgs2 msgs3 c idle1 idle2,
       rate_limit_requests cfg = 2 ->
       rate_limit_window cfg = 60 ->
       request_times c = [] ->
       0 <= idle1 -> 0 <= idle2 ->
       let run1 := complete cfg net1 msgs1 c in
       let run2 := complete cfg net2 msgs2 (pass_time idle1 run1.1.2) in
       let run3 := complete cfg net3 msgs3 (pass_time idle2 run2.1.2) in
       exists t1 t3,
         first_attempt run1.2 = Some t1
         /\ first_attempt run3.2 = Some t3
         /\ t1 + 60 <= t3).
Proof.
  split; [exact follows_budget_call|]. split; [|split].
  - intros cfg now ledger kept. split; [intros t; apply In_prune|].
    split; [apply budget_wait_under|].
    intros Hbudget Hover.
    destruct (oldest_over_budget cfg kept Hbudget Hover) as [old Hold].
    exists old.
    destruct (oldest_spec _ _ Hold) as [Hin Hle].
    destruct (budget_wait_over cfg now ledger old Hover Hold) as [Hpos Hwait].
    auto 6.
  - intros cfg net n c pre now kept post Hbudget Htrace.
    pose proof (follows_budget_call cfg net n c) as Hfollows.
    rewrite Htrace in Hfollows.
    apply follows_budget_at in Hfollows as [ledger Hfollows].
    cbn [follows_budget] in Hfollows.
    destruct Hfollows as (Hkept & Hok & (req & post' & Hpost) & _).
    assert (Hover : rate_limit_requests cfg <= Z.of_nat (length kept)).
    { destruct (Z.ltb_spec (Z.of_nat (length kept)) (rate_limit_requests cfg));
        [discriminate|assumption]. }
    destruct (oldest_over_budget cfg kept Hbudget Hover) as [old Hold].
    subst kept.
    destruct (budget_wait_over cfg now ledger old Hover Hold) as [Hpos Hwait].
    exists old, req, post'. split; [exact Hold|]. split; [exact Hpos|].
    rewrite Hpost, Hwait. cbn [slept app].
    replace (now + (Z.max 0 (rate_limit_window cfg - (now - old)) + 0))
      with (old + rate_limit_window cfg) by lia.
    reflexivity.
  - intros cfg net1 net2 net3 msgs1 msgs2 msgs3 c idle1 idle2
      Hbudget Hwindow Hempty Hidle1 Hidle2. cbv zeta.
    rewrite !complete_eq.
    set (c1 := Client (clock c) (request_times c) msgs1).
    destruct (first_call cfg net1 0 c1 Hempty) as [Hsend1 Hinv1].
    set (run1 := generate_response cfg net1 0 c1) in *.
    set (c2 := Client (clock (pass_time idle1 run1.1.2))
                 (request_times (pass_time idle1 run1.1.2)) msgs2).
    assert (Hinv2 : budget_inv cfg 2 (clock c)
                      (generate_response cfg net2 0 c2).1.2).
    { apply budget_inv_call, budget_inv_next_call; assumption. }
    set (run2 := generate_response cfg net2 0 c2) in *.
    set (c3 := Client (clock (pass_time idle2 run2.1.2))
                 (request_times (pass_time idle2 run2.1.2)) msgs3).
    assert (Hinv3 : budget_inv cfg 2 (clock c) c3)
      by (apply budget_inv_next_call; assumption).
    exists (clock c), (send_time cfg c3).
    split; [unfold run1; rewrite first_attempt_generate_response; f_equal;
            exact Hsend1|].
    split; [apply first_attempt_generate_response|].
    rewrite <- Hwindow. apply third_call; assumption.
Qed.

Lemma C6_budget_witness :
  (exists t1 t3,
     first_attempt (complete Examples.cfg_two Examples.hello [Examples.user_hi]
                      (Client 0 [] [])).2 = Some t1
     /\ first_attempt
          (complete Examples.cfg_two Examples.hello [Examples.user_hi]
             (pass_time 0
                (complete Examples.cfg_two Examples.hello [Examples.user_hi]
                   (pass_time 0
                      (complete Examples.cfg_two Examples.hello
                         [Examples.user_hi] (Client 0 [] [])).1.2)).1.2)).2
        = Some t3
     /\ t1 + 60 <= t3)
  /\ (exists old,
        oldest (prune Examples.cfg_two 2 [0; 1]) = Some old
        /\ In old (prune Examples.cfg_two 2 [0; 1])
        /\ Forall (fun e => old <= e) (prune Examples.cfg_two 2 [0; 1])
        /\ 0 < rate_limit_window Examples.cfg_two - (2 - old)
        /\ budget_wait Examples.cfg_two 2 (prune Examples.cfg_two 2 [0; 1])
           = [Log INFO (RateLimitReached
                          (rate_limit_window Examples.cfg_two - (2 - old)));
              Sleep (rate_limit_window Examples.cfg_two - (2 - old))]).
Proof.
  destruct C6_budget_check_and_wait as (_ & Hwait & _ & Hlaw). split.
  - apply (Hlaw Examples.cfg_two Examples.hello Examples.hello Examples.hello
             [Examples.user_hi] [Examples.user_hi] [Examples.user_hi]
             (Client 0 [] []) 0 0); (reflexivity || lia).
  - destruct (Hwait Examples.cfg_two 2 [0; 1]) as (_ & _ & Hover).
    apply Hover; vm_compute; discriminate.
Defined.

(** C6, as stated, fails for a budget that is not positive: with a
    budget of zero the check of the first attempt on an empty ledger
    fails, the count 0 being at or over the budget, and there is no
    oldest entry to wait for: the request goes out at once, with no
    wait at all. *)
Lemma C6_counterexample_zero_budget_skips_wait :
  rate_limit_requests Examples.cfg_zero
  <= Z.of_nat (length (prune Examples.cfg_zero 0 (request_times Examples.fresh)))
  /\ (generate_response Examples.cfg_zero Examples.hello 0 Examples.fresh).2
     = [CheckLimit 0 [] false;
        RecordRequest 0;
        Post 0 (payload Examples.cfg_zero
                  [system_message Examples.cfg_zero; Examples.user_hi]);
        Log INFO SuccessfullyGenerated]
  /\ slept (generate_response Examples.cfg_zero Examples.hello 0
              Examples.fresh).2 = 0.
Proof.
  split; [vm_compute; discriminate|].
  split; vm_compute; reflexivity.
Qed.

(** ** Backoff between attempts *)

(** Below the retry bound, a 429 or any other status than 200 is
    followed by a sleep of [retry_delay_base * 2 ^ n]. *)
Lemma backoff_after_status cfg n status data error_text :
  status <> 200 -> n < max_retries cfg ->
  (react cfg n (Response status data error_text)).2 = None
  /\ last (react cfg n (Response status data error_text)).1
     = Some (Sleep (retry_delay_base cfg * 2 ^ n))
  /\ slept (react cfg n (Response status data error_text)).1
     = Z.max 0 (retry_delay_base cfg * 2 ^ n).
Proof.
  intros Hstatus Hlt. unfold react.
  destruct (Z.eqb_spec status 200); [contradiction|].
  destruct (Z.ltb_spec n (max_retries cfg)); [|lia].
  destruct (status =? 429); cbn; repeat split; lia.
Qed.

(** A timeout or any other exception is retried at once. *)
Lemma no_backoff_after_exception cfg n e :
  slept (react cfg n (Raised e)).1 = 0.
Proof. apply slept_react_exn. Qed.

(** C1, the code at the failing inputs: with [retry_delay_base = 1],
    when attempt 0 times out (or loses its connection) and attempt 1 is
    answered, no sleep stands between the two requests, where the delay
    [retry_delay_base * 2 ^ 0] is 1. *)
Theorem C1_no_backoff_after_timeout :
  generate_response Examples.cfg Examples.timeout_then_hello 0 Examples.fresh
  = (Some (Some "hello"%string),
     Client 31 [0; 30] [system_message Examples.cfg; Examples.user_hi],
     [CheckLimit 0 [] true; RecordRequest 0; Post 0 Examples.request_hi;
      Log ERROR TimedOut;
      CheckLimit 30 [0] true; RecordRequest 30; Post 30 Examples.request_hi;
      Log INFO SuccessfullyGenerated])
  /\ generate_response Examples.cfg Examples.reset_then_hello 0 Examples.fresh
     = (Some (Some "hello"%string),
        Client 2 [0; 1] [system_message Examples.cfg; Examples.user_hi],
        [CheckLimit 0 [] true; RecordRequest 0; Post 0 Examples.request_hi;
         Log ERROR (ErrorCalling (ClientError "Connection reset"));
         CheckLimit 1 [0] true; RecordRequest 1; Post 1 Examples.request_hi;
         Log INFO SuccessfullyGenerated])
  /\ retry_delay_base Examples.cfg * 2 ^ 0 = 1.
Proof. repeat split; vm_compute; reflexivity. Qed.

(** ** Reading the payload of a 200 response *)

(** The accessors of the source find a reply text exactly in a payload
    of the documented shape. *)
Lemma read_content_spec data :
  match reply_field data with
  | Some text => read_content data = Ok (Some (JStr text))
  | None =>
      read_content data = Ok None
      \/ (exists e, read_content data = Raise e)
      \/ (exists v e, read_content data = Ok (Some v) /\ Py.strip v = Raise e)
  end.
Proof.
  unfold read_content, reply_field.
  destruct data as [|b|k|s|items|fields]; cbn;
    try (right; left; eexists; reflexivity).
  - destruct (PyStr.contains _ _); cbn; [right; left; eexists; reflexivity|auto].
  - destruct (existsb _ items); cbn; [right; left; eexists; reflexivity|auto].
  - destruct (Py.lookup_field "choices" fields) as [choices|]; cbn; [|auto].
    destruct choices as [|b|k|s|items|more]; cbn; auto.
    + destruct b; cbn; [right; left; eexists; reflexivity|auto].
    + destruct (k =? 0); cbn; [auto|right; left; eexists; reflexivity].
    + destruct s as [|a s]; cbn; [auto|right; left; eexists; reflexivity].
    + destruct items as [|first items]; cbn; [auto|].
      destruct first as [| | | | |first]; cbn;
        try (right; left; eexists; reflexivity).
      destruct (Py.lookup_field "message" first) as [message|]; cbn;
        [|right; left; eexists; reflexivity].
      destruct message as [| | | | |message]; cbn;
        try (right; left; eexists; reflexivity).
      destruct (Py.lookup_field "content" message) as [content|]; cbn;
        [|right; left; eexists; reflexivity].
      destruct content; cbn; try reflexivity;
        right; right; do 2 eexists; split; reflexivity.
    + destruct more; cbn; [auto|right; left; eexists; reflexivity].
Qed.

Lemma read_content_no_choices data :
  no_choices data -> read_content data = Ok None.
Proof.
  unfold no_choices, read_content.
  destruct data as [| | | | |fields]; try contradiction. cbn.
  destruct (Py.lookup_field "choices" fields) as [choices|]; cbn; [|reflexivity].
  intros ->. reflexivity.
Qed.

(** A run that returns at its first attempt. *)
Lemma generate_response_return cfg net n c r :
  (react cfg n (outcome (net n))).2 = Some r ->
  generate_response cfg net n c
  = (Some r, attempted cfg net n c, attempt_events cfg net n c).
Proof. intros H. rewrite generate_response_unfold, H. reflexivity. Qed.

(** A run that goes on makes at least two attempts. *)
Lemma generate_response_retry cfg net n c :
  (react cfg n (outcome (net n))).2 = None ->
  (2 <= attempts_made (generate_response cfg net n c).2)%nat.
Proof.
  intros H. rewrite generate_response_unfold, H.
  pose proof (first_attempt_generate_response cfg net (n + 1)
                (attempted cfg net n c)) as Hfirst.
  destruct (generate_response cfg net (n + 1) _) as [[r c'] rest].
  cbn [snd] in *. unfold attempts_made, first_attempt in *.
  rewrite posts_app, posts_attempt_events, length_app.
  destruct (posts rest); [discriminate|cbn; lia].
Qed.

Lemma last_attempt_events cfg net n c :
  last (attempt_events cfg net n c) = last (react cfg n (outcome (net n))).1
  \/ (react cfg n (outcome (net n))).1 = [].
Proof.
  unfold attempt_events.
  destruct (react cfg n (outcome (net n))).1 as [|e evs] eqn:Hmid; [auto|left].
  rewrite last_app, last_cons.
  destruct (last (e :: evs)) eqn:Hlast; [reflexivity|].
  apply last_None in Hlast. discriminate.
Qed.

(** C4, as amended: an attempt answered with status 200 and a payload
    whose "choices" is absent or empty ends the call there: no further
    request is sent, and the value returned is [None], which is none of
    the texts returned after a timeout, a rate limit or another
    failure. *)
Theorem C4_no_choices_is_terminal cfg net n c data error_text :
  outcome (net n) = Response 200 data error_text ->
  no_choices data ->
  (generate_response cfg net n c).1.1 = Some None
  /\ attempts_made (generate_response cfg net n c).2 = 1%nat
  /\ last (generate_response cfg net n c).2 = Some (Log ERROR NoChoices)
  /\ forall text, (generate_response cfg net n c).1.1 <> Some (Some text).
Proof.
  intros Hnet Hno.
  assert (Hreact : react cfg n (outcome (net n))
                   = ([Log ERROR NoChoices], Some None)).
  { rewrite Hnet. unfold react. cbn. rewrite (read_content_no_choices _ Hno).
    reflexivity. }
  rewrite (generate_response_return cfg net n c None)
    by (rewrite Hreact; reflexivity).
  cbn [fst snd]. unfold attempts_made. rewrite posts_attempt_events.
  split; [reflexivity|]. split; [reflexivity|]. split; [|discriminate].
  destruct (last_attempt_events cfg net n c) as [-> | Hnil];
    rewrite Hreact in *; [reflexivity|discriminate].
Qed.

Lemma C4_no_choices_witness :
  (generate_response Examples.cfg
     (Examples.always (Examples.answers Examples.empty_choices)) 0
     Examples.fresh).1.1 = Some None
  /\ attempts_made
       (generate_response Examples.cfg
          (Examples.always (Examples.answers Examples.empty_choices)) 0
          Examples.fresh).2 = 1%nat.
Proof.
  destruct (C4_no_choices_is_terminal Examples.cfg
              (Examples.always (Examples.answers Examples.empty_choices)) 0
              Examples.fresh Examples.empty_choices "" eq_refl)
    as (Hnone & Hone & _).
  - reflexivity.
  - split; assumption.
Defined.

(** C4, as stated, fails: a 200 response whose message has no content is
    not the end of the call; the [KeyError] is caught by the general
    handler, the request is sent again up to the retry bound, and the
    call returns the text of the unexpected-error branch. *)
Lemma C4_counterexample_missing_content_is_retried :
  (generate_response Examples.cfg
     (Examples.always (Examples.answers Examples.no_content)) 0
     Examples.fresh).1.1
  = Some (Some "Sorry, I encountered an unexpected error: 'content'"%string)
  /\ attempts_made
       (generate_response Examples.cfg
          (Examples.always (Examples.answers Examples.no_content)) 0
          Examples.fresh).2 = 4%nat.
Proof. split; vm_compute; reflexivity. Qed.

Lemma last_react_exn cfg n e :
  exists msg, (react_exn cfg n e).1 = [Log ERROR msg].
Proof. destruct e; eexists; reflexivity. Qed.

(** An attempt that ends in one of the [except] clauses does not
    succeed, whether it is the last one or not. *)
Lemma not_succeeded_after_exception cfg net n c e pre :
  (react cfg n (outcome (net n))).1 = pre ++ (react_exn cfg n e).1 ->
  (react cfg n (outcome (net n))).2 = (react_exn cfg n e).2 ->
  ~ attempt_succeeded (generate_response cfg net n c).
Proof.
  intros Hevs Hverdict (Hone & Hlast & _).
  destruct (react_exn cfg n e).2 as [r|] eqn:Hexn.
  - rewrite (generate_response_return cfg net n c r) in Hlast by congruence.
    cbn [snd] in Hlast.
    destruct (last_react_exn cfg n e) as [msg Hmsg].
    destruct (last_attempt_events cfg net n c) as [Heq|Hnil].
    + rewrite Heq, Hevs, Hmsg, last_snoc in Hlast. discriminate.
    + rewrite Hevs, Hmsg in Hnil. destruct pre; discriminate.
  - pose proof (generate_response_retry cfg net n c ltac:(congruence)). lia.
Qed.

(** C5, as amended: an attempt answered with status 200 succeeds exactly
    when the payload is an object whose "choices" is an array that
    starts with an object whose "message" is an object whose "content"
    is a string, empty or not; it then returns that string stripped of
    surrounding whitespace. *)
Theorem C5_success_on_200 cfg net n c data error_text :
  outcome (net n) = Response 200 data error_text ->
  (forall text,
     reply_field data = Some text ->
     (generate_response cfg net n c).1.1 = Some (Some (PyStr.strip text))
     /\ attempt_succeeded (generate_response cfg net n c))
  /\ (reply_field data = None ->
      ~ attempt_succeeded (generate_response cfg net n c)).
Proof.
  intros Hnet. pose proof (read_content_spec data) as Hread. split.
  - intros text Hfield. rewrite Hfield in Hread.
    assert (Hreact : react cfg n (outcome (net n))
                     = ([Log INFO SuccessfullyGenerated],
                        Some (Some (PyStr.strip text)))).
    { rewrite Hnet. unfold react. cbn. rewrite Hread. reflexivity. }
    rewrite (generate_response_return cfg net n c (Some (PyStr.strip text)))
      by (rewrite Hreact; reflexivity).
    split; [reflexivity|]. unfold attempt_succeeded. cbn [fst snd].
    unfold attempts_made. rewrite posts_attempt_events.
    split; [reflexivity|]. split; [|eexists; reflexivity].
    destruct (last_attempt_events cfg net n c) as [-> | Hnil];
      rewrite Hreact in *; [reflexivity|discriminate].
  - intros Hfield. rewrite Hfield in Hread.
    destruct Hread as [Hnone|[[e Hraise]|(v & e & Hsome & Hstrip)]].
    + intros (_ & _ & text & Hres).
      rewrite (generate_response_return cfg net n c None) in Hres;
        [discriminate|].
      rewrite Hnet. unfold react. cbn. rewrite Hnone. reflexivity.
    + apply (not_succeeded_after_exception cfg net n c e []);
        rewrite Hnet; unfold react; cbn; rewrite Hraise; reflexivity.
    + apply (not_succeeded_after_exception cfg net n c e
               [Log INFO SuccessfullyGenerated]);
        rewrite Hnet; unfold react; cbn; rewrite Hsome, Hstrip; reflexivity.
Qed.

Lemma C5_success_witness :
  (generate_response Examples.cfg Examples.hello 0 Examples.fresh).1.1
  = Some (Some "hello"%string)
  /\ attempt_succeeded
       (generate_response Examples.cfg Examples.hello 0 Examples.fresh).
Proof.
  destruct (C5_success_on_200 Examples.cfg Examples.hello 0 Examples.fresh
              (Examples.reply (JStr " hello ")) "" eq_refl) as [Hyes _].
  exact (Hyes " hello "%string eq_refl).
Defined.

(** C5, as stated, fails: a payload whose reply text is empty is a
    success of the client all the same (it returns the empty string
    through [return content.strip()]); and a payload whose list of
    choices is not empty but whose first choice has no message is not. *)
Lemma C5_counterexample_empty_reply_succeeds :
  reply_field (Examples.reply (JStr "")) = Some ""%string
  /\ generate_response Examples.cfg
       (Examples.always (Examples.answers (Examples.reply (JStr "")))) 0
       Examples.fresh
     = (Some (Some ""%string),
        Client 1 [0] [system_message Examples.cfg; Examples.user_hi],
        [CheckLimit 0 [] true; RecordRequest 0; Post 0 Examples.request_hi;
         Log INFO SuccessfullyGenerated])
  /\ Py.truthy (JArr [JObj []]) = true
  /\ (generate_response Examples.cfg
        (Examples.always (Examples.answers Examples.no_message)) 0
        Examples.fresh).1.1
     = Some (Some "Sorry, I encountered an unexpected error: 'message'"%string).
Proof. repeat split; vm_compute; reflexivity. Qed.

(** ** The conversation store *)

Section Store.

Import ConversationStore.

Variable maxTurns : nat.
Hypothesis maxTurns_pos : (0 < maxTurns)%nat.

Lemma length_last_n {A : Type} (l : list A) :
  length (last_n maxTurns l) = Nat.min maxTurns (length l).
Proof. unfold last_n. rewrite length_drop. lia. Qed.

(** Evicting the oldest turn of a full log and adding one keeps the last
    [maxTurns] turns. *)
Lemma last_n_snoc (l : list Turn) (t : Turn) :
  (if decide (maxTurns <= length (last_n maxTurns l))%nat
   then drop 1 (last_n maxTurns l) else last_n maxTurns l) ++ [t]
  = last_n maxTurns (l ++ [t]).
Proof.
  rewrite length_last_n. unfold last_n. rewrite length_app. cbn [length].
  destruct (decide (maxTurns <= Nat.min maxTurns (length l))%nat) as [Hfull|Hroom].
  - rewrite drop_drop, drop_app_le by lia. do 2 f_equal. lia.
  - replace (length l - maxTurns)%nat with 0%nat by lia.
    replace (length l + 1 - maxTurns)%nat with 0%nat by lia. reflexivity.
Qed.

Lemma context_append_same key t store :
  context key (append maxTurns key (role t) (content t) store)
  = (if decide (maxTurns <= length (context key store))%nat
     then drop 1 (context key store) else context key store) ++ [t].
Proof.
  unfold append, context at 1. rewrite lookup_insert_eq. destruct t. reflexivity.
Qed.

(** An append leaves the logs of the other keys alone. *)
Lemma context_append_other key key' r text store :
  key' <> key ->
  context key (append maxTurns key' r text store) = context key store.
Proof.
  intros Hne. unfold append, context at 1.
  rewrite lookup_insert_ne by assumption. reflexivity.
Qed.

Lemma context_foldl key calls : forall store before,
  context key store = last_n maxTurns before ->
  context key (foldl (fun store call =>
                        append maxTurns call.1 (role call.2) (content call.2)
                          store)
                 store calls)
  = last_n maxTurns (before ++ appended_to key calls).
Proof.
  unfold appended_to.
  induction calls as [|[key' t] calls IH]; intros store before Hstore.
  - cbn. rewrite app_nil_r. exact Hstore.
  - cbn [foldl fst snd]. rewrite filter_cons. cbn [fst].
    destruct (decide (key' = key)) as [->|Hne].
    + rewrite fmap_cons. cbn [snd].
      rewrite (IH _ (before ++ [t])).
      * rewrite <- app_assoc. reflexivity.
      * rewrite context_append_same, Hstore. apply last_n_snoc.
    + apply IH. rewrite context_append_other by assumption. exact Hstore.
Qed.

End Store.

(** C8: after any finite sequence of [append] calls, on one key or on
    several, the context of a key holds at most [maxTurns] turns, and
    they are the last [maxTurns] turns appended to that key, in call
    order: each append that would exceed the capacity first evicts the
    oldest turn, whatever its role.  (Capacity at least one.) *)
Theorem C8_context_is_last_maxTurns_appended
    (maxTurns : nat)
    (calls : list (ConversationStore.ConversationKey * ConversationStore.Turn))
    (key : ConversationStore.ConversationKey) :
  (0 < maxTurns)%nat ->
  ConversationStore.context key (ConversationStore.appends maxTurns calls)
  = ConversationStore.last_n maxTurns (ConversationStore.appended_to key calls)
  /\ (length (ConversationStore.context key
                (ConversationStore.appends maxTurns calls)) <= maxTurns)%nat.
Proof.
  intros Hpos.
  assert (Heq : ConversationStore.context key
                  (ConversationStore.appends maxTurns calls)
                = ConversationStore.last_n maxTurns
                    (ConversationStore.appended_to key calls)).
  { unfold ConversationStore.appends.
    rewrite (context_foldl maxTurns Hpos key calls ∅ []); reflexivity. }
  split; [exact Heq|]. rewrite Heq, length_last_n by assumption. lia.
Qed.

Lemma C8_context_witness :
  ConversationStore.context (ConversationStore.ChannelKey 1)
    (ConversationStore.appends 2 Examples.calls)
  = [ {| ConversationStore.role := ConversationStore.user;
         ConversationStore.content := "hi" |};
      {| ConversationStore.role := ConversationStore.assistant;
         ConversationStore.content := "hello" |} ]
  /\ (length (ConversationStore.context (ConversationStore.ChannelKey 1)
                (ConversationStore.appends 2 Examples.calls)) <= 2)%nat.
Proof.
  apply (C8_context_is_last_maxTurns_appended 2 Examples.calls
           (ConversationStore.ChannelKey 1)).
  lia.
Defined.

(** * Further properties of [generate_response] *)

(** ** Number of attempts *)

Lemma at_least_one_attempt cfg net n c :
  (1 <= attempts_made (generate_response cfg net n c).2)%nat.
Proof.
  pose proof (first_attempt_generate_response cfg net n c) as H.
  unfold first_attempt, attempts_made in *.
  destruct (posts _); [discriminate|cbn; lia].
Qed.

Lemma react_exn_retried cfg n e :
  (react_exn cfg n e).2 = None <-> n < max_retries cfg.
Proof.
  destruct e; cbn; destruct (Z.ltb_spec n (max_retries cfg));
    split; intros Hside; first [reflexivity|lia|discriminate].
Qed.

(** An attempt is followed by another exactly when it met a retried
    failure below the retry bound. *)
Lemma react_retried cfg n o :
  (react cfg n o).2 = None <-> retried_failure o /\ n < max_retries cfg.
Proof.
  unfold react, retried_failure.
  destruct o as [e|status data error_text].
  - rewrite react_exn_retried. tauto.
  - destruct (Z.eqb_spec status 200) as [->|Hstatus].
    + destruct (read_content data) as [[content|]|e] eqn:Hread.
      * destruct (Py.strip content) as [text|e] eqn:Hstrip; cbn [fst snd].
        -- split; [discriminate|].
           intros [[H|[[e He]|(v & e & [= <-] & He)]] _];
             [lia|discriminate|congruence].
        -- rewrite react_exn_retried. split; [|tauto].
           intros Hlt. split; [|exact Hlt]. right. right. eauto.
      * cbn [fst snd]. split; [discriminate|].
        intros [[H|[[e He]|(v & e & He & _)]] _];
          [lia|discriminate|discriminate].
      * rewrite react_exn_retried. split; [|tauto].
        intros Hlt. split; [|exact Hlt]. right. left. eauto.
    + destruct (status =? 429); destruct (Z.ltb_spec n (max_retries cfg));
        cbn [fst snd]; split; intros Hside;
        first [reflexivity|discriminate|lia|tauto].
Qed.

(** X1: whatever the remote side does, a call entered at attempt [n]
    returns, after at least one request and at most
    [max_retries - n + 1] (a bound [max_retries] that is zero or
    negative leaves the single first request).  The attempts stop at
    the first one that is at the retry bound or meets no retried
    failure: every attempt before the last met a retried failure below
    the bound, and the last one did not. *)
Theorem attempts_between_one_and_bound cfg net n c :
  exists r,
    (generate_response cfg net n c).1.1 = Some r
    /\ (1 <= attempts_made (generate_response cfg net n c).2)%nat
    /\ Z.of_nat (attempts_made (generate_response cfg net n c).2)
       <= Z.max 1 (max_retries cfg - n + 1)
    /\ (forall j,
          n <= j < n + Z.of_nat (attempts_made (generate_response cfg net n c).2) - 1 ->
          retried_failure (outcome (net j)) /\ j < max_retries cfg)
    /\ ~ (retried_failure
            (outcome (net (n + Z.of_nat (attempts_made
                                           (generate_response cfg net n c).2) - 1)))
          /\ n + Z.of_nat (attempts_made (generate_response cfg net n c).2) - 1
             < max_retries cfg).
Proof.
  apply (generate_response_ind cfg net (fun n _ run =>
    exists r,
      run.1.1 = Some r
      /\ (1 <= attempts_made run.2)%nat
      /\ Z.of_nat (attempts_made run.2) <= Z.max 1 (max_retries cfg - n + 1)
      /\ (forall j, n <= j < n + Z.of_nat (attempts_made run.2) - 1 ->
            retried_failure (outcome (net j)) /\ j < max_retries cfg)
      /\ ~ (retried_failure
              (outcome (net (n + Z.of_nat (attempts_made run.2) - 1)))
            /\ n + Z.of_nat (attempts_made run.2) - 1 < max_retries cfg)));
    clear n c.
  - intros n c r Hverdict. exists r. cbn [fst snd]. unfold attempts_made.
    rewrite posts_attempt_events. cbn [length].
    split; [reflexivity|]. split; [lia|]. split; [lia|].
    split; [intros j Hj; lia|].
    replace (n + Z.of_nat 1 - 1) with n by lia.
    rewrite <- react_retried, Hverdict. discriminate.
  - intros n c r c' rest Hverdict Hlt _ (r' & Hres & Hone & Hbound & Hbefore & Hlast).
    exists r'. cbn [fst snd] in *. unfold attempts_made in *.
    rewrite posts_app, posts_attempt_events, length_app. cbn [length].
    split; [exact Hres|]. split; [lia|]. split; [lia|].
    replace (n + Z.of_nat (1 + length (posts rest)) - 1)
      with (n + 1 + Z.of_nat (length (posts rest)) - 1) by lia.
    split; [|exact Hlast].
    intros j Hj. destruct (Z.eq_dec j n) as [->|Hne].
    + apply react_retried. exact Hverdict.
    + apply Hbefore. lia.
Qed.

Lemma attempts_between_one_and_bound_witness :
  retried_failure (outcome (Examples.timeout_then_hello 0))
  /\ 0 < max_retries Examples.cfg.
Proof.
  destruct (attempts_between_one_and_bound Examples.cfg
              Examples.timeout_then_hello 0 Examples.fresh)
    as (r & _ & _ & _ & Hbefore & _).
  apply (Hbefore 0). vm_compute. split; [discriminate|reflexivity].
Defined.

(** ** What a call can return *)

Lemma react_exn_verdict cfg k e r :
  (react_exn cfg k e).2 = Some r ->
  max_retries cfg <= k /\ exists text, r = Some text /\ degraded_message text.
Proof.
  destruct (react_exn_retryable cfg k e) as [[_ Hnone]|(Hge & text & Hsome & Hdeg)];
    intros Hr; [congruence|].
  split; [assumption|]. exists text. split; [congruence|assumption].
Qed.

(** The value an attempt returns, read off its response. *)
Lemma react_verdict cfg k o r :
  (react cfg k o).2 = Some r ->
  match r with
  | None =>
      exists data error_text,
        o = Response 200 data error_text /\ read_content data = Ok None
  | Some text =>
      (exists data error_text reply,
         o = Response 200 data error_text
         /\ reply_field data = Some reply /\ text = PyStr.strip reply)
      \/ (max_retries cfg <= k /\ degraded_message text)
  end.
Proof.
  unfold react. destruct o as [e|status data error_text].
  - intros Hr. destruct (react_exn_verdict _ _ _ _ Hr) as (Hge & text & -> & Hdeg).
    right. auto.
  - destruct (Z.eqb_spec status 200) as [->|Hstatus].
    + pose proof (read_content_spec data) as Hread.
      destruct (reply_field data) as [reply|] eqn:Hfield.
      * rewrite Hread. cbn. intros [= <-]. left. eauto 6.
      * destruct (read_content data) as [[content|]|e] eqn:Hcontent.
        -- destruct Hread as [Hnone|[[e He]|(v & e & [= <-] & Hstrip)]];
             try discriminate.
           rewrite Hstrip. cbn. intros Hr.
           destruct (react_exn_verdict _ _ _ _ Hr) as (Hge & text & -> & Hdeg).
           right. auto.
        -- cbn. intros [= <-]. eauto.
        -- intros Hr.
           destruct (react_exn_verdict _ _ _ _ Hr) as (Hge & text & -> & Hdeg).
           right. auto.
    + destruct (status =? 429); destruct (Z.ltb_spec k (max_retries cfg));
        cbn; try discriminate; intros [= <-]; right;
        (split; [lia|constructor]).
Qed.

(** X2: a call returns [None] only when its last attempt was answered
    with status 200 and a payload without usable choices; any text it
    returns is either the stripped reply text of the payload of its last
    attempt, or one of the four apology texts, and those only once the
    retry bound is reached. *)
Theorem result_of_call cfg net n c :
  exists r last_attempt,
    (generate_response cfg net n c).1.1 = Some r
    /\ last_attempt
       = n + Z.of_nat (attempts_made (generate_response cfg net n c).2) - 1
    /\ match r with
       | None =>
           exists data error_text,
             outcome (net last_attempt) = Response 200 data error_text
             /\ read_content data = Ok None
       | Some text =>
           (exists data error_text reply,
              outcome (net last_attempt) = Response 200 data error_text
              /\ reply_field data = Some reply /\ text = PyStr.strip reply)
           \/ (max_retries cfg <= last_attempt /\ degraded_message text)
       end.
Proof.
  apply (generate_response_ind cfg net (fun n _ run =>
    exists r last_attempt,
      run.1.1 = Some r
      /\ last_attempt = n + Z.of_nat (attempts_made run.2) - 1
      /\ match r with
         | None =>
             exists data error_text,
               outcome (net last_attempt) = Response 200 data error_text
               /\ read_content data = Ok None
         | Some text =>
             (exists data error_text reply,
                outcome (net last_attempt) = Response 200 data error_text
                /\ reply_field data = Some reply /\ text = PyStr.strip reply)
             \/ (max_retries cfg <= last_attempt /\ degraded_message text)
         end)); clear n c.
  - intros n c r Hverdict. exists r, n. cbn [fst snd]. unfold attempts_made.
    rewrite posts_attempt_events. cbn [length].
    split; [reflexivity|]. split; [lia|].
    exact (react_verdict _ _ _ _ Hverdict).
  - intros n c r c' rest _ _ _ (r' & k & Hres & Hk & Hclass).
    exists r', k. cbn [fst snd] in *. unfold attempts_made in *.
    rewrite posts_app, posts_attempt_events, length_app. cbn [length].
    split; [assumption|]. split; [lia|assumption].
Qed.

(** ** Success after failures *)

Lemma react_reply cfg k data error_text reply :
  reply_field data = Some reply ->
  react cfg k (Response 200 data error_text)
  = ([Log INFO SuccessfullyGenerated], Some (Some (PyStr.strip reply))).
Proof.
  intros Hfield. pose proof (read_content_spec data) as Hread.
  rewrite Hfield in Hread. unfold react. cbn. rewrite Hread. reflexivity.
Qed.

(** X3: when the attempts before attempt [k] all meet a retried
    failure (an exception of the transport or a timeout, a status other
    than 200, or a status 200 whose payload cannot be read), [k] is
    within the retry bound, and attempt [k] is answered with status 200
    and a payload that carries a reply text, the call returns that text
    stripped, after exactly [k + 1] requests. *)
Theorem success_after_failures cfg net c k data error_text reply :
  0 <= k <= max_retries cfg ->
  (forall j, 0 <= j < k -> retried_failure (outcome (net j))) ->
  outcome (net k) = Response 200 data error_text ->
  reply_field data = Some reply ->
  (generate_response cfg net 0 c).1.1 = Some (Some (PyStr.strip reply))
  /\ Z.of_nat (attempts_made (generate_response cfg net 0 c).2) = k + 1.
Proof.
  intros Hk Hfail Hnet Hfield.
  assert (Hgen : forall m n c, Z.of_nat m = k - n -> 0 <= n ->
            (generate_response cfg net n c).1.1 = Some (Some (PyStr.strip reply))
            /\ Z.of_nat (attempts_made (generate_response cfg net n c).2)
               = k - n + 1).
  { clear c. induction m as [|m IH]; intros n c Hm Hn.
    - assert (n = k) by lia. subst n.
      rewrite (generate_response_return cfg net k c
                 (Some (PyStr.strip reply)))
        by (rewrite Hnet, (react_reply _ _ _ _ _ Hfield); reflexivity).
      cbn [fst snd]. unfold attempts_made. rewrite posts_attempt_events.
      cbn [length]. split; [reflexivity|lia].
    - rewrite generate_response_unfold.
      assert (Hnone : (react cfg n (outcome (net n))).2 = None).
      { apply react_retried. split; [apply Hfail|]; lia. }
      rewrite Hnone.
      destruct (IH (n + 1) (attempted cfg net n c) ltac:(lia) ltac:(lia))
        as [Hres Hcount].
      destruct (generate_response cfg net (n + 1) _) as [[r c'] rest].
      cbn [fst snd] in *. split; [exact Hres|]. unfold attempts_made in *.
      rewrite posts_app, posts_attempt_events, length_app. cbn [length]. lia. }
  destruct (Hgen (Z.to_nat k) 0 c ltac:(lia) ltac:(lia)) as [Hres Hcount].
  split; [exact Hres|]. rewrite Hcount. lia.
Qed.

Lemma success_after_failures_witness :
  (generate_response Examples.cfg Examples.no_content_then_timeout_then_hello 0
     Examples.fresh).1.1 = Some (Some "hello"%string)
  /\ Z.of_nat (attempts_made
                 (generate_response Examples.cfg
                    Examples.no_content_then_timeout_then_hello 0
                    Examples.fresh).2) = 2 + 1.
Proof.
  apply (success_after_failures Examples.cfg
           Examples.no_content_then_timeout_then_hello
           Examples.fresh 2 (Examples.reply (JStr " hello ")) "" " hello ").
  - cbn. lia.
  - intros j Hj. assert (j = 0 \/ j = 1) as [-> | ->] by lia.
    + right. left. eexists. reflexivity.
    + exact I.
  - reflexivity.
  - reflexivity.
Defined.

(** ** Delays between attempts *)

Lemma backoffs_quiet_before evs rest :
  forallb quiet evs = true ->
  backoffs false (evs ++ rest) = backoffs false rest.
Proof.
  induction evs as [|e evs IH]; [reflexivity|].
  destruct e; cbn; try discriminate; exact IH.
Qed.

Lemma backoffs_quiet_after evs rest :
  forallb quiet evs = true ->
  backoffs true (evs ++ rest)
  = omap (fun e => match e with Sleep d => Some d | _ => None end) evs
    ++ backoffs true rest.
Proof.
  induction evs as [|e evs IH]; [reflexivity|].
  destruct e; cbn; try discriminate; intros H; rewrite (IH H); reflexivity.
Qed.

Lemma backoffs_attempt_events cfg net n c b rest :
  backoffs b (attempt_events cfg net n c ++ rest)
  = omap (fun e => match e with Sleep d => Some d | _ => None end)
         (react cfg n (outcome (net n))).1
    ++ backoffs true rest.
Proof.
  rewrite attempt_events_shape. cbv zeta. cbn [app backoffs].
  rewrite <- !app_assoc.
  rewrite backoffs_quiet_before by apply budget_wait_quiet.
  cbn [app backoffs].
  apply backoffs_quiet_after, react_quiet.
Qed.

Lemma sleeps_react_exn cfg n e :
  omap (fun e => match e with Sleep d => Some d | _ => None end)
       (react_exn cfg n e).1 = [].
Proof. destruct e; reflexivity. Qed.

(** The sleeps of an attempt after its request: none when it returns,
    [delay_after] when it retries. *)
Lemma sleeps_react cfg net n :
  omap (fun e => match e with Sleep d => Some d | _ => None end)
       (react cfg n (outcome (net n))).1
  = match (react cfg n (outcome (net n))).2 with
    | Some _ => []
    | None => delay_after cfg net n
    end.
Proof.
  unfold delay_after, react.
  destruct (outcome (net n)) as [e|status data error_text].
  - rewrite sleeps_react_exn. destruct (react_exn cfg n e).2; reflexivity.
  - destruct (status =? 200).
    + destruct (read_content data) as [[content|]|e];
        [destruct (Py.strip content) as [text|e]| |]; cbn [fst snd];
        try reflexivity.
      * change (omap ?f (Log INFO SuccessfullyGenerated :: ?l)) with (omap f l).
        rewrite sleeps_react_exn. destruct (react_exn cfg n e).2; reflexivity.
      * rewrite sleeps_react_exn. destruct (react_exn cfg n e).2; reflexivity.
    + destruct (status =? 429); destruct (n <? max_retries cfg); reflexivity.
Qed.

(** X4: for a call entered at an attempt number that is not negative,
    under a retry bound of at most 1024 (so that every delay is computed
    for a count from 0 to 1023), the sleeps the call makes between a
    request and the next budget check are, in order, those of its
    retried attempts: after attempt [k], [retry_delay_base * 2 ^ k] when
    [k] was answered with a status other than 200, and nothing when [k]
    raised (a timeout included) or carried an unreadable 200 payload;
    the last attempt is followed by no sleep. *)
Theorem backoff_delays_of_call cfg net n c :
  0 <= n ->
  max_retries cfg <= 1024 ->
  backoffs false (generate_response cfg net n c).2
  = flat_map (delay_after cfg net)
      (seqZ n (Z.of_nat (attempts_made (generate_response cfg net n c).2) - 1))
  /\ n + Z.of_nat (attempts_made (generate_response cfg net n c).2) - 1
     <= Z.max n (max_retries cfg)
  /\ Forall (fun k => 0 <= k < 1024 /\ k < max_retries cfg)
       (seqZ n (Z.of_nat (attempts_made (generate_response cfg net n c).2) - 1)).
Proof.
  intros Hn Hmax.
  enough (H : forall b,
            backoffs b (generate_response cfg net n c).2
            = flat_map (delay_after cfg net)
                (seqZ n (Z.of_nat (attempts_made
                                     (generate_response cfg net n c).2) - 1))
            /\ n + Z.of_nat (attempts_made (generate_response cfg net n c).2) - 1
               <= Z.max n (max_retries cfg)
            /\ (n <= max_retries cfg ->
                n + Z.of_nat (attempts_made (generate_response cfg net n c).2) - 1
                <= max_retries cfg)).
  { destruct (H false) as (Hdelays & Hlast & Hbound).
    split; [exact Hdelays|]. split; [exact Hlast|].
    apply Forall_forall. intros k Hin. apply elem_of_seqZ in Hin. lia. }
  apply (generate_response_ind cfg net (fun n _ run => forall b,
    backoffs b run.2
    = flat_map (delay_after cfg net)
        (seqZ n (Z.of_nat (attempts_made run.2) - 1))
    /\ n + Z.of_nat (attempts_made run.2) - 1 <= Z.max n (max_retries cfg)
    /\ (n <= max_retries cfg ->
        n + Z.of_nat (attempts_made run.2) - 1 <= max_retries cfg)));
    clear n c Hn.
  - intros n c r Hverdict b. cbn [snd]. unfold attempts_made.
    rewrite posts_attempt_events. cbn [length].
    rewrite <- (app_nil_r (attempt_events cfg net n c)).
    rewrite backoffs_attempt_events, sleeps_react, Hverdict.
    split; [reflexivity|]. lia.
  - intros n c r c' rest Hverdict Hlt Hrun IH b. cbn [snd] in *.
    pose proof (at_least_one_attempt cfg net (n + 1)
                  (attempted cfg net n c)) as Hone.
    rewrite Hrun in Hone. cbn [snd] in Hone.
    destruct (IH true) as (Hdelays & Hlast & Hbound).
    unfold attempts_made in *.
    rewrite backoffs_attempt_events, sleeps_react, Hverdict, Hdelays.
    rewrite posts_app, posts_attempt_events, length_app. cbn [length].
    split; [|lia].
    rewrite (seqZ_cons n) by lia. cbn [flat_map]. do 3 f_equal; lia.
Qed.

Lemma backoff_delays_witness :
  backoffs false (generate_response Examples.cfg Examples.always_429 0
                    Examples.fresh).2
  = flat_map (delay_after Examples.cfg Examples.always_429)
      (seqZ 0 (Z.of_nat (attempts_made
                           (generate_response Examples.cfg Examples.always_429 0
                              Examples.fresh).2) - 1))
  /\ backoffs false (generate_response Examples.cfg Examples.always_429 0
                       Examples.fresh).2
     = [1; 2; 4].
Proof.
  split; [|vm_compute; reflexivity].
  apply (backoff_delays_of_call Examples.cfg Examples.always_429 0
           Examples.fresh); [lia|vm_compute; discriminate].
Defined.

(** ** The requests of one call *)

(** X5: all the requests of one call are the same request: every retry
    posts again to [openrouter_base_url + "/chat/completions"], with the
    same bearer key, model, [max_tokens] and message list as the first
    attempt. *)
Theorem retries_resend_the_same_request cfg net n c t req :
  In (t, req) (posts (generate_response cfg net n c).2) ->
  req = payload cfg (with_system_prompt cfg (messages c))
  /\ url req = (openrouter_base_url cfg +:+ "/chat/completions")%string
  /\ authorization req = ("Bearer " +:+ openrouter_api_key cfg)%string
  /\ model req = model_name cfg.
Proof.
  intros Hin.
  enough (req = payload cfg (with_system_prompt cfg (messages c)))
    as -> by repeat split.
  revert t req Hin.
  apply (generate_response_ind cfg net (fun _ c run => forall t req,
    In (t, req) (posts run.2) ->
    req = payload cfg (with_system_prompt cfg (messages c)))); clear n c.
  - intros n c r _ t req. cbn [snd]. rewrite posts_attempt_events.
    intros [[= <- <-]|[]]. reflexivity.
  - intros n c r c' rest _ _ _ IH t req. cbn [snd] in *.
    rewrite posts_app, posts_attempt_events. intros [[= <- <-]|Hin].
    + reflexivity.
    + rewrite (IH _ _ Hin), messages_attempted, with_system_prompt_idem.
      reflexivity.
Qed.

Lemma retries_resend_witness :
  Examples.request_hi
  = payload Examples.cfg
      (with_system_prompt Examples.cfg (messages Examples.fresh))
  /\ url Examples.request_hi
     = (openrouter_base_url Examples.cfg +:+ "/chat/completions")%string
  /\ authorization Examples.request_hi
     = ("Bearer " +:+ openrouter_api_key Examples.cfg)%string
  /\ model Examples.request_hi = model_name Examples.cfg.
Proof.
  apply (retries_resend_the_same_request Examples.cfg
           Examples.timeout_then_hello 0 Examples.fresh 30).
  vm_compute. right. left. reflexivity.
Defined.

(** ** The budget over calls in a row *)

Lemma prune_app cfg now l1 l2 :
  prune cfg now (l1 ++ l2) = prune cfg now l1 ++ prune cfg now l2.
Proof. apply filter_app. Qed.

Lemma length_prune cfg now l : (length (prune cfg now l) <= length l)%nat.
Proof. apply length_filter. Qed.

(** Pruning later prunes at least as much. *)
Lemma prune_prune cfg now now' l :
  now <= now' -> prune cfg now' (prune cfg now l) = prune cfg now' l.
Proof.
  intros Hle. unfold prune. induction l as [|e l IH]; [reflexivity|].
  rewrite !filter_cons.
  destruct (decide (now - e < rate_limit_window cfg)) as [Hin|Hout].
  - rewrite filter_cons.
    destruct (decide (now' - e < rate_limit_window cfg)); rewrite IH; reflexivity.
  - rewrite decide_False by lia. exact IH.
Qed.

Lemma length_prune_mono cfg now now' l :
  now <= now' ->
  (length (prune cfg now' l) <= length (prune cfg now l))%nat.
Proof.
  intros Hle. rewrite <- (prune_prune cfg now now' l Hle). apply length_prune.
Qed.

(** An entry that leaves the window makes the pruned ledger shorter. *)
Lemma length_prune_drops cfg now l old :
  In old l -> rate_limit_window cfg <= now - old ->
  (length (prune cfg now l) < length l)%nat.
Proof.
  intros Hin Hold. unfold prune. induction l as [|e l IH]; [destruct Hin|].
  rewrite filter_cons. destruct Hin as [->|Hin].
  - rewrite decide_False by lia.
    pose proof (length_filter (fun e => now - e < rate_limit_window cfg) l).
    cbn. lia.
  - specialize (IH Hin).
    destruct (decide (now - e < rate_limit_window cfg)); cbn; lia.
Qed.

(** At the time an attempt sends, fewer than the budget of the earlier
    entries are still inside the window. *)
Lemma room_at_send_time cfg c :
  1 <= rate_limit_requests cfg ->
  Z.of_nat (length (prune cfg (clock c) (request_times c)))
    <= rate_limit_requests cfg ->
  Z.of_nat (length (prune cfg (send_time cfg c) (request_times c)))
    < rate_limit_requests cfg.
Proof.
  intros Hbudget Hcount.
  pose proof (send_time_ge cfg c) as Hsend.
  pose proof (length_prune_mono cfg (clock c) (send_time cfg c)
                (request_times c) Hsend) as Hmono.
  set (kept := prune cfg (clock c) (request_times c)) in *.
  destruct (Z.lt_ge_cases (Z.of_nat (length kept)) (rate_limit_requests cfg))
    as [Hunder|Hover]; [lia|].
  destruct (oldest kept) as [old|] eqn:Hold.
  - destruct (oldest_spec _ _ Hold) as [Hin _].
    destruct (budget_wait_over cfg (clock c) (request_times c) old
                ltac:(fold kept; lia) Hold) as [Hpos Hwait].
    assert (Ht : send_time cfg c = old + rate_limit_window cfg).
    { unfold send_time. rewrite Hwait. cbn [slept]. lia. }
    rewrite <- (prune_prune cfg (clock c) (send_time cfg c)) by lia.
    fold kept.
    pose proof (length_prune_drops cfg (send_time cfg c) kept old Hin
                  ltac:(lia)). lia.
  - destruct kept; [cbn in Hover; lia|discriminate].
Qed.

Lemma prune_self cfg t :
  0 < rate_limit_window cfg -> prune cfg t [t] = [t].
Proof.
  intros Hwindow. unfold prune.
  rewrite filter_cons, decide_True by lia. reflexivity.
Qed.

(** One attempt keeps the budget and keeps the ledger in step with the
    requests issued. *)
Lemma ledger_tracks_attempted cfg net n c past :
  0 < rate_limit_window cfg ->
  1 <= rate_limit_requests cfg ->
  ledger_tracks cfg past c ->
  Z.of_nat (length (prune cfg (send_time cfg c) (past ++ [send_time cfg c])))
    <= rate_limit_requests cfg
  /\ ledger_tracks cfg (past ++ [send_time cfg c]) (attempted cfg net n c).
Proof.
  intros Hwindow Hbudget [Hsame Hcount].
  pose proof (send_time_ge cfg c) as Hsend.
  pose proof (clock_attempted cfg net n c) as Hafter.
  pose proof (room_at_send_time cfg c Hbudget Hcount) as Hroom.
  assert (Hnow : Z.of_nat (length (prune cfg (send_time cfg c)
                                     (past ++ [send_time cfg c])))
                 <= rate_limit_requests cfg).
  { rewrite prune_app, prune_self, length_app by assumption.
    rewrite <- Hsame by lia. cbn [length]. lia. }
  split; [exact Hnow|]. split.
  - intros now Hle. rewrite request_times_attempted, !prune_app.
    rewrite prune_prune by lia. rewrite Hsame by lia. reflexivity.
  - rewrite request_times_attempted.
    pose proof (length_prune_mono cfg (send_time cfg c)
                  (clock (attempted cfg net n c))
                  (prune cfg (clock c) (request_times c) ++ [send_time cfg c])
                  Hafter) as Hmono.
    rewrite !prune_app, !prune_prune, prune_self, !length_app in Hmono
      by (assumption || lia).
    cbn [length] in Hmono.
    pose proof (length_prune cfg (clock (attempted cfg net n c))
                  [send_time cfg c]) as Hone.
    cbn [length] in Hone.
    rewrite prune_app, length_app, prune_prune by lia. lia.
Qed.

Lemma within_budget_app cfg past evs rest :
  within_budget cfg past (evs ++ rest)
  <-> within_budget cfg past evs
      /\ within_budget cfg (past ++ (fst <$> posts evs)) rest.
Proof.
  revert past. induction evs as [|e evs IH]; intros past.
  - cbn. rewrite app_nil_r. tauto.
  - destruct e; cbn [app within_budget posts omap posted]; try apply IH.
    cbn. rewrite IH, <- app_assoc. cbn. tauto.
Qed.

Lemma within_budget_attempt_events cfg net n c past :
  within_budget cfg past (attempt_events cfg net n c)
  <-> Z.of_nat (length (prune cfg (send_time cfg c)
                          (past ++ [send_time cfg c])))
      <= rate_limit_requests cfg.
Proof.
  assert (Hquiet : forall evs p, forallb quiet evs = true ->
            within_budget cfg p evs).
  { induction evs as [|e evs IH]; intros p; [intros; exact I|].
    destruct e; cbn; try discriminate; apply IH. }
  rewrite attempt_events_shape. cbv zeta.
  rewrite !within_budget_app. cbn [within_budget].
  rewrite (posts_quiet _ (budget_wait_quiet _ _ _)).
  pose proof (Hquiet _ past (budget_wait_quiet cfg (clock c)
                (prune cfg (clock c) (request_times c)))).
  pose proof (Hquiet _ (past ++ [send_time cfg c])
                (react_quiet cfg n (outcome (net n)))).
  cbn. rewrite !app_nil_r. tauto.
Qed.

(** A whole call keeps the budget. *)
Lemma within_budget_call cfg net n c :
  0 < rate_limit_window cfg ->
  1 <= rate_limit_requests cfg ->
  forall past, ledger_tracks cfg past c ->
  within_budget cfg past (generate_response cfg net n c).2
  /\ ledger_tracks cfg
       (past ++ (fst <$> posts (generate_response cfg net n c).2))
       (generate_response cfg net n c).1.2.
Proof.
  intros Hwindow Hbudget.
  apply (generate_response_ind cfg net (fun _ c run => forall past,
    ledger_tracks cfg past c ->
    within_budget cfg past run.2
    /\ ledger_tracks cfg (past ++ (fst <$> posts run.2)) run.1.2)); clear n c.
  - intros n c r _ past Htracks. cbn [fst snd].
    destruct (ledger_tracks_attempted cfg net n c past Hwindow Hbudget Htracks)
      as [Hnow Hnext].
    rewrite within_budget_attempt_events, posts_attempt_events. auto.
  - intros n c r c' rest _ _ _ IH past Htracks. cbn [fst snd] in *.
    destruct (ledger_tracks_attempted cfg net n c past Hwindow Hbudget Htracks)
      as [Hnow Hnext].
    destruct (IH _ Hnext) as [Hrest Hafter].
    rewrite within_budget_app, within_budget_attempt_events.
    rewrite posts_app, posts_attempt_events, fmap_app, app_assoc.
    auto.
Qed.

(** The clock does not go back during a call, and after the call the
    ledger holds, of the entries it had and of the timestamps of all the
    attempts, those that no check of the call found outside the window:
    at every later pruning it gives what the full list gives. *)
Lemma ledger_after_call cfg net n c :
  clock c <= clock (generate_response cfg net n c).1.2
  /\ forall now,
       clock (generate_response cfg net n c).1.2 <= now ->
       prune cfg now (request_times (generate_response cfg net n c).1.2)
       = prune cfg now
           (request_times c
            ++ (fst <$> posts (generate_response cfg net n c).2)).
Proof.
  apply (generate_response_ind cfg net (fun _ c run =>
    clock c <= clock run.1.2
    /\ forall now, clock run.1.2 <= now ->
         prune cfg now (request_times run.1.2)
         = prune cfg now (request_times c ++ (fst <$> posts run.2))));
    clear n c.
  - intros n c r _. cbn [fst snd].
    pose proof (send_time_ge cfg c) as Hsend.
    pose proof (clock_attempted cfg net n c) as Hafter.
    split; [lia|]. intros now Hnow.
    rewrite request_times_attempted, posts_attempt_events, !prune_app.
    rewrite prune_prune by lia. reflexivity.
  - intros n c r c' rest _ _ _ [Hclock IH]. cbn [fst snd] in *.
    pose proof (send_time_ge cfg c) as Hsend.
    pose proof (clock_attempted cfg net n c) as Hafter.
    split; [lia|]. intros now Hnow.
    rewrite (IH now Hnow), request_times_attempted.
    rewrite posts_app, posts_attempt_events, fmap_app, !prune_app.
    rewrite prune_prune by lia. cbn [fmap list_fmap fst].
    rewrite <- !app_assoc. reflexivity.
Qed.

(** C7: the trace of a call is a sequence of attempts, and every one of
    them, the retries included, runs the budget check on the ledger of
    that moment (pruned to the window, its count compared with the
    budget), makes the wait that ledger demands, then records the time
    reached in the ledger and at once issues its request at that same
    time.  So there is one check and one ledger entry per request; the
    ledger ends with the timestamp of the last attempt and holds, at
    every pruning to come, the timestamps of all the attempts of the
    call beside its earlier entries, whether or not the call succeeded;
    and with a positive window and a budget of at least one request, on
    a ledger that is within budget, no request of the call, first
    attempt or retry, goes out while the budget of requests less than a
    window old is used up. *)
Theorem C7_every_attempt_checks_then_records cfg net n c :
  run_phases Start (generate_response cfg net n c).2 = Some Posted
  /\ follows_budget cfg (request_times c) (generate_response cfg net n c).2
  /\ omap recorded (generate_response cfg net n c).2
     = fst <$> posts (generate_response cfg net n c).2
  /\ length (omap checked (generate_response cfg net n c).2)
     = attempts_made (generate_response cfg net n c).2
  /\ last (request_times (generate_response cfg net n c).1.2)
     = last (fst <$> posts (generate_response cfg net n c).2)
  /\ (forall now,
        clock (generate_response cfg net n c).1.2 <= now ->
        prune cfg now (request_times (generate_response cfg net n c).1.2)
        = prune cfg now
            (request_times c
             ++ (fst <$> posts (generate_response cfg net n c).2)))
  /\ (0 < rate_limit_window cfg ->
      1 <= rate_limit_requests cfg ->
      forall past,
        ledger_tracks cfg past c ->
        within_budget cfg past (generate_response cfg net n c).2).
Proof.
  split; [|split; [apply follows_budget_call|]].
  { apply (generate_response_ind cfg net (fun _ _ run =>
      run_phases Start run.2 = Some Posted)); clear n c.
    - intros n c r _. cbn [snd]. apply run_phases_attempt_events. auto.
    - intros n c r c' rest _ _ Hrun Hphases. cbn [snd] in *.
      rewrite run_phases_app, run_phases_attempt_events by auto.
      pose proof (first_attempt_generate_response cfg net (n + 1)
                    (attempted cfg net n c)) as Hfirst.
      rewrite Hrun in Hfirst. unfold first_attempt in Hfirst.
      cbn [snd] in Hfirst.
      destruct (posts rest) as [|[t req] more] eqn:Hposts; [discriminate|].
      cbn. destruct rest as [|e rest]; [discriminate|].
      destruct e; try discriminate. exact Hphases. }
  split; [|split; [|split; [|split]]].
  - apply (generate_response_ind cfg net (fun _ _ run =>
      omap recorded run.2 = fst <$> posts run.2)); clear n c.
    + intros n c r _. cbn [snd].
      rewrite recorded_attempt_events, posts_attempt_events. reflexivity.
    + intros n c r c' rest _ _ _ IH. cbn [snd] in *.
      rewrite omap_app, recorded_attempt_events, posts_app,
        posts_attempt_events, fmap_app, IH. reflexivity.
  - apply (generate_response_ind cfg net (fun _ _ run =>
      length (omap checked run.2) = attempts_made run.2)); clear n c.
    + intros n c r _. cbn [snd]. unfold attempts_made.
      rewrite checked_attempt_events, posts_attempt_events. reflexivity.
    + intros n c r c' rest _ _ _ IH. cbn [snd] in *. unfold attempts_made in *.
      rewrite omap_app, checked_attempt_events, posts_app,
        posts_attempt_events, !length_app, IH. reflexivity.
  - apply (generate_response_ind cfg net (fun _ _ run =>
      last (request_times run.1.2) = last (fst <$> posts run.2))); clear n c.
    + intros n c r _. cbn [fst snd].
      rewrite posts_attempt_events, request_times_attempted, last_snoc.
      reflexivity.
    + intros n c r c' rest _ _ Hrun IH. cbn [fst snd] in *.
      rewrite IH, posts_app, posts_attempt_events, fmap_app.
      pose proof (first_attempt_generate_response cfg net (n + 1)
                    (attempted cfg net n c)) as Hfirst.
      rewrite Hrun in Hfirst. unfold first_attempt in Hfirst.
      cbn [snd] in Hfirst.
      destruct (posts rest) as [|[t req] more]; [discriminate|].
      reflexivity.
  - apply ledger_after_call.
  - intros Hwindow Hbudget past Htracks.
    apply (within_budget_call cfg net n c Hwindow Hbudget past Htracks).
Qed.

Lemma C7_retries_keep_the_budget_witness :
  within_budget Examples.cfg_two []
    (generate_response Examples.cfg_two Examples.always_429 0
       Examples.fresh).2
  /\ fst <$> posts (generate_response Examples.cfg_two Examples.always_429 0
                      Examples.fresh).2
     = [0; 2; 60; 65].
Proof.
  split; [|vm_compute; reflexivity].
  destruct (C7_every_attempt_checks_then_records Examples.cfg_two
              Examples.always_429 0 Examples.fresh)
    as (_ & _ & _ & _ & _ & _ & Hbudget).
  apply Hbudget.
  - reflexivity.
  - vm_compute. discriminate.
  - split; [intros now _; reflexivity|vm_compute; discriminate].
Defined.

Lemma ledger_tracks_next_call cfg past c idle msgs :
  0 <= idle ->
  ledger_tracks cfg past c ->
  ledger_tracks cfg past
    (Client (clock (pass_time idle c)) (request_times (pass_time idle c)) msgs).
Proof.
  intros Hidle [Hsame Hcount]. unfold ledger_tracks, pass_time.
  cbn [clock request_times]. split.
  - intros now Hle. apply Hsame. lia.
  - pose proof (length_prune_mono cfg (clock c) (clock c + idle)
                  (request_times c) ltac:(lia)). lia.
Qed.

Lemma within_budget_session cfg calls :
  0 < rate_limit_window cfg ->
  1 <= rate_limit_requests cfg ->
  forall c past, ledger_tracks cfg past c ->
  within_budget cfg past (session cfg calls c).2.
Proof.
  intros Hwindow Hbudget.
  induction calls as [|k calls IH]; intros c past Htracks; [exact I|].
  cbn [session snd]. rewrite complete_eq.
  pose proof (ledger_tracks_next_call cfg past c (Z.max 0 (call_idle k))
                (call_messages k) ltac:(lia) Htracks) as Hentry.
  destruct (within_budget_call cfg (call_net k) 0 _ Hwindow Hbudget past Hentry)
    as [Hrun Hafter].
  rewrite within_budget_app. split; [exact Hrun|]. apply IH, Hafter.
Qed.

(** X6: on a client whose ledger starts empty, with a budget of at
    least one request and a window of positive length, any number of
    calls made one after the other, whatever the remote side does and
    however long the pauses between them, never put more than the
    budget of requests into a window: at each request, the requests
    issued so far, that one included, that are less than a window old
    number at most [rate_limit_requests]. *)
Theorem budget_kept_over_calls cfg calls c :
  0 < rate_limit_window cfg ->
  1 <= rate_limit_requests cfg ->
  request_times c = [] ->
  within_budget cfg [] (session cfg calls c).2.
Proof.
  intros Hwindow Hbudget Hempty.
  apply within_budget_session; try assumption.
  split.
  - intros now _. rewrite Hempty. reflexivity.
  - rewrite Hempty. unfold prune. rewrite filter_nil. cbn. lia.
Qed.

Lemma budget_kept_over_calls_witness :
  within_budget Examples.cfg_two []
    (session Examples.cfg_two
       [ {| call_net := Examples.hello;
            call_messages := [Examples.user_hi];
            call_idle := 0 |};
         {| call_net := Examples.always_429;
            call_messages := [Examples.user_hi];
            call_idle := 5 |};
         {| call_net := Examples.timeout_then_hello;
            call_messages := [Examples.user_hi];
            call_idle := -1 |} ]
       Examples.fresh).2.
Proof.
  apply budget_kept_over_calls; [reflexivity|vm_compute; discriminate|reflexivity].
Defined.

(** * The HTTP session *)

Lemma Session_no_leak_step st o :
  Session.no_leak st -> Session.no_leak (Session.step st o).
Proof.
  unfold Session.no_leak, Session.is_open. intros Hinv.
  destruct o; cbn;
    [unfold Session.create_session|unfold Session.close_session];
    destruct (Session.session st) as [cur|] eqn:Hcur; cbn.
  - rewrite Hcur. exact Hinv.
  - intros id [Hlt Hnot].
    destruct (decide (id = Session.created st)) as [->|Hne]; [reflexivity|].
    specialize (Hinv id ltac:(split; [lia|assumption])). discriminate.
  - intros id [Hlt Hnot].
    specialize (Hinv id ltac:(split; [assumption|set_solver])).
    injection Hinv as ->. set_solver.
  - rewrite Hcur. exact Hinv.
Qed.

Lemma Session_well_formed_step st o :
  Session.well_formed st -> Session.well_formed (Session.step st o).
Proof.
  unfold Session.well_formed. intros [Hclosed Hheld].
  destruct o; cbn;
    [unfold Session.create_session|unfold Session.close_session];
    destruct (Session.session st) as [cur|] eqn:Hcur; cbn.
  - rewrite Hcur. auto.
  - split; [intros id Hin; specialize (Hclosed id Hin); lia|].
    intros id [= <-]. lia.
  - split; [|discriminate].
    intros id Hin. apply elem_of_union in Hin as [Hin|Hin].
    + apply elem_of_singleton in Hin as ->. apply Hheld. reflexivity.
    + apply Hclosed, Hin.
  - rewrite Hcur. split; [exact Hclosed|discriminate].
Qed.

Lemma Session_invariants (ops : list Session.op) :
  Session.no_leak (foldl Session.step Session.init ops)
  /\ Session.well_formed (foldl Session.step Session.init ops).
Proof.
  assert (H : forall st,
            Session.no_leak st /\ Session.well_formed st ->
            Session.no_leak (foldl Session.step st ops)
            /\ Session.well_formed (foldl Session.step st ops)).
  { induction ops as [|o ops IH]; intros st [Hleak Hwf]; [auto|].
    cbn. apply IH. split;
      [apply Session_no_leak_step, Hleak|apply Session_well_formed_step, Hwf]. }
  apply H. split.
  - intros id [Hlt _]. cbn in Hlt. lia.
  - split; [intros id Hin; cbn in Hin; set_solver|discriminate].
Qed.

(** X7: through any sequence of [create_session] and [close_session]
    calls on a new client, no session object is ever left open apart
    from the one the client holds; [create_session] keeps a session the
    client already holds, and [close_session] followed by
    [create_session] holds a session that is open and new. *)
Theorem session_create_close_never_leak (ops : list Session.op) :
  Session.no_leak (foldl Session.step Session.init ops)
  /\ (forall id,
       Session.session (foldl Session.step Session.init ops) = Some id ->
       Session.create_session (foldl Session.step Session.init ops)
       = foldl Session.step Session.init ops)
  /\ exists id,
       Session.session
         (Session.create_session
            (Session.close_session (foldl Session.step Session.init ops)))
       = Some id
       /\ Session.is_open
            (Session.create_session
               (Session.close_session (foldl Session.step Session.init ops)))
            id
       /\ (Session.created (foldl Session.step Session.init ops) <= id)%nat.
Proof.
  destruct (Session_invariants ops) as [Hleak [Hclosed Hheld]].
  set (st := foldl Session.step Session.init ops) in *.
  split; [exact Hleak|]. split.
  - intros id Hsession. unfold Session.create_session. rewrite Hsession.
    reflexivity.
  - exists (Session.created st).
    unfold Session.close_session, Session.create_session, Session.is_open.
    destruct (Session.session st) as [cur|] eqn:Hcur; cbn.
    + split; [reflexivity|]. split; [|lia]. split; [lia|].
      intros Hin. apply elem_of_union in Hin as [Hin|Hin].
      * apply elem_of_singleton in Hin.
        specialize (Hheld cur eq_refl). lia.
      * specialize (Hclosed _ Hin). lia.
    + rewrite Hcur. cbn. split; [reflexivity|]. split; [|lia]. split; [lia|].
      intros Hin. specialize (Hclosed _ Hin). lia.
Qed.

Lemma session_create_close_witness :
  Session.create_session
    (foldl Session.step Session.init [Session.Create; Session.Close;
                                      Session.Create])
  = foldl Session.step Session.init [Session.Create; Session.Close;
                                     Session.Create].
Proof.
  destruct (session_create_close_never_leak
              [Session.Create; Session.Close; Session.Create])
    as (_ & Hkeep & _).
  apply (Hkeep 1%nat). reflexivity.
Defined.

(** X8: the context manager does not reset the session it closes: after
    [__aenter__] and [__aexit__] the client holds a closed session, and
    [create_session] leaves it in place; and [__aenter__] on a client
    that holds an open session replaces it without closing it. *)
Theorem session_context_manager_leaves_closed_session st :
  (exists id,
     Session.session (Session.__aexit__ (Session.__aenter__ st)) = Some id
     /\ id ∈ Session.closed (Session.__aexit__ (Session.__aenter__ st))
     /\ Session.create_session (Session.__aexit__ (Session.__aenter__ st))
        = Session.__aexit__ (Session.__aenter__ st))
  /\ (forall id,
       Session.session st = Some id -> Session.is_open st id ->
       Session.is_open (Session.__aenter__ st) id
       /\ Session.session (Session.__aenter__ st) <> Some id).
Proof.
  split.
  - exists (Session.created st). cbn. split; [reflexivity|].
    split; [set_solver|reflexivity].
  - intros id Hsession [Hlt Hnot].
    unfold Session.is_open, Session.__aenter__, Session.new_session. cbn.
    split.
    + split; [lia|exact Hnot].
    + intros [= Heq]. lia.
Qed.

Lemma session_context_manager_witness :
  Session.is_open (Session.__aenter__ (Session.create_session Session.init)) 0
  /\ Session.session (Session.__aenter__ (Session.create_session Session.init))
     <> Some 0%nat.
Proof.
  destruct (session_context_manager_leaves_closed_session
              (Session.create_session Session.init)) as [_ Hleak].
  apply (Hleak 0%nat); [reflexivity|].
  split; [cbn; lia|cbn; set_solver].
Defined.

(** * Replies cut into messages *)

Lemma length_substring n m s :
  String.length (String.substring n m s) = Nat.min m (String.length s - n).
Proof.
  revert n m. induction s as [|a s IH]; intros [|n] [|m]; cbn;
    rewrite ?IH; try reflexivity; lia.
Qed.

Lemma length_string_drop n s :
  String.length (string_drop n s) = (String.length s - n)%nat.
Proof.
  revert s. induction n as [|n IH]; intros [|a s]; cbn;
    rewrite ?IH; reflexivity || lia.
Qed.

Lemma substring_string_drop n i m s :
  String.substring (n + i) m s = String.substring i m (string_drop n s).
Proof.
  revert s. induction n as [|n IH]; intros s; [reflexivity|].
  destruct s as [|a s]; cbn [Nat.add string_drop].
  - destruct i, m; reflexivity.
  - cbn [String.substring]. apply IH.
Qed.

Lemma substring_0_string_drop m s :
  (String.substring 0 m s +:+ string_drop m s)%string = s.
Proof.
  revert s. induction m as [|m IH]; intros [|a s]; try reflexivity.
  cbn [String.substring string_drop].
  change (String a (String.substring 0 m s) +:+ string_drop m s)%string
    with (String a (String.substring 0 m s +:+ string_drop m s)%string).
  rewrite IH. reflexivity.
Qed.

(** Pieces of [size] characters taken one after the other make the
    string again. *)
Lemma join_pieces size : forall count s,
  (String.length s <= count * size)%nat ->
  join ((fun k => String.substring (k * size) size s) <$> seq 0 count) = s.
Proof.
  induction count as [|count IH]; intros s Hlen.
  - destruct s; [reflexivity|cbn in Hlen; lia].
  - cbn [seq fmap list_fmap join foldr]. rewrite <- seq_shift.
    change (foldr String.append EmptyString ?l) with (join l).
    rewrite <- list_fmap_compose.
    rewrite (list_fmap_ext _
               (fun k => String.substring (k * size) size (string_drop size s))).
    + rewrite IH by (rewrite length_string_drop; lia).
      change (0 * size)%nat with 0%nat. apply substring_0_string_drop.
    + intros i k _. cbn [compose].
      replace (S k * size)%nat with (size + k * size)%nat by lia.
      apply substring_string_drop.
Qed.

Lemma chunks_eq s :
  DiscordClient.chunks s
  = (fun k => String.substring (k * 2000) 2000 s)
      <$> seq 0 (Nat.div (String.length s + 2000 - 1) 2000).
Proof.
  unfold DiscordClient.chunks, DiscordClient.range_step.
  rewrite <- list_fmap_compose. reflexivity.
Qed.


(** X9: the chunks of a reply, put end to end, are the reply; each chunk
    holds between 1 and 2000 characters, every chunk but the last holds
    exactly 2000, and there are ceil(len / 2000) of them (none for the
    empty string). *)
Theorem chunks_cover_the_reply s :
  join (DiscordClient.chunks s) = s
  /\ Forall (fun chunk => (1 <= String.length chunk <= 2000)%nat)
            (DiscordClient.chunks s)
  /\ (forall i chunk,
        DiscordClient.chunks s !! i = Some chunk ->
        (S i < length (DiscordClient.chunks s))%nat ->
        String.length chunk = 2000%nat)
  /\ length (DiscordClient.chunks s)
     = Nat.div (String.length s + 1999) 2000.
Proof.
  rewrite chunks_eq.
  set (count := Nat.div (String.length s + 2000 - 1) 2000).
  assert (Hcount : (String.length s <= count * 2000
                    /\ count * 2000 < String.length s + 2000)%nat).
  { subst count.
    pose proof (Nat.div_mod_eq (String.length s + 2000 - 1) 2000).
    pose proof (Nat.mod_upper_bound (String.length s + 2000 - 1) 2000
                  ltac:(discriminate)).
    lia. }
  split; [apply join_pieces; lia|]. split; [|split].
  - apply Forall_forall. intros chunk Hin.
    apply list_elem_of_fmap in Hin as (k & -> & Hk).
    apply elem_of_seq in Hk. rewrite length_substring. lia.
  - intros i chunk Hlookup Hlast.
    rewrite length_fmap, length_seq in Hlast.
    rewrite list_lookup_fmap in Hlookup.
    destruct (seq 0 count !! i) as [k|] eqn:Hk; [|discriminate].
    apply lookup_seq in Hk as [-> _]. injection Hlookup as <-.
    rewrite length_substring. lia.
  - rewrite length_fmap, length_seq. subst count. f_equal. lia.
Qed.

Lemma chunks_cover_witness :
  String.length (String.substring 0 2000 (repeat_char 4001 "a")) = 2000%nat.
Proof.
  destruct (chunks_cover_the_reply (repeat_char 4001 "a")) as (_ & _ & Hfull & _).
  apply (Hfull 0%nat).
  - vm_compute. reflexivity.
  - vm_compute. lia.
Defined.

Lemma length_append (s1 s2 : string) :
  String.length (s1 +:+ s2)%string
  = (String.length s1 + String.length s2)%nat.
Proof.
  induction s1 as [|a s1 IH]; [reflexivity|].
  change (String a s1 +:+ s2)%string with (String a (s1 +:+ s2)%string).
  cbn [String.length]. rewrite IH. reflexivity.
Qed.


(** * The ask command *)






(** * Which messages reach the AI *)

(** X11: [on_message] hands a message to the AI only when its author is
    not a bot and its text does not start with the command prefix, so
    with an empty prefix no message is ever handed over; a configured
    channel id of 0 counts as no channel; with a channel configured, a
    message in a server is answered exactly when it is in that channel,
    mentions elsewhere being ignored; and a direct message from a user
    is answered whenever it is not a command. *)
Theorem on_message_reaches_the_ai (cfg : DiscordBot.settings)
    (m : DiscordBot.incoming) :
  (DiscordBot.on_message cfg m = DiscordBot.CommandsThenChat ->
   DiscordBot.author_bot m = false
   /\ String.prefix (DiscordBot.command_prefix cfg) (DiscordBot.content m)
      = false)
  /\ (DiscordBot.command_prefix cfg = ""%string ->
      DiscordBot.on_message cfg m <> DiscordBot.CommandsThenChat)
  /\ (DiscordBot.chat_channel_id cfg = Some 0 ->
      DiscordBot.on_message cfg m
      = DiscordBot.on_message
          {| DiscordBot.command_prefix := DiscordBot.command_prefix cfg;
             DiscordBot.chat_channel_id := None |} m)
  /\ (forall id,
        DiscordBot.chat_channel_id cfg = Some id -> id <> 0 ->
        DiscordBot.author_bot m = false ->
        String.prefix (DiscordBot.command_prefix cfg) (DiscordBot.content m)
        = false ->
        DiscordBot.in_dm m = false ->
        (DiscordBot.on_message cfg m = DiscordBot.CommandsThenChat
         <-> DiscordBot.channel_id m = id))
  /\ (DiscordBot.author_bot m = false ->
      String.prefix (DiscordBot.command_prefix cfg) (DiscordBot.content m)
      = false ->
      DiscordBot.in_dm m = true ->
      DiscordBot.on_message cfg m = DiscordBot.CommandsThenChat).
Proof.
  unfold DiscordBot.on_message, DiscordBot._should_respond_to_message.
  repeat split.
  - destruct (DiscordBot.author_bot m); [discriminate|reflexivity].
  - destruct (DiscordBot.author_bot m); [discriminate|].
    destruct (String.prefix _ _); [discriminate|reflexivity].
  - intros ->. destruct (DiscordBot.author_bot m); [discriminate|].
    destruct (DiscordBot.content m); discriminate.
  - intros ->. reflexivity.
  - rewrite H, H1, H2, H3. cbn.
    destruct (Z.eqb_spec id 0); [contradiction|]. cbn.
    destruct (Z.eqb_spec (DiscordBot.channel_id m) id);
      [trivial|discriminate].
  - rewrite H, H1, H2, H3. cbn.
    destruct (Z.eqb_spec id 0); [contradiction|]. cbn.
    intros ->. rewrite Z.eqb_refl. reflexivity.
  - intros -> -> ->. reflexivity.
Qed.

Lemma on_message_witness :
  DiscordBot.on_message
    {| DiscordBot.command_prefix := "!"; DiscordBot.chat_channel_id := Some 42 |}
    {| DiscordBot.author_bot := false; DiscordBot.in_dm := false;
       DiscordBot.channel_id := 7; DiscordBot.mentions_bot := true;
       DiscordBot.content := "hello bot" |}
  <> DiscordBot.CommandsThenChat.
Proof.
  destruct (on_message_reaches_the_ai
              {| DiscordBot.command_prefix := "!";
                 DiscordBot.chat_channel_id := Some 42 |}
              {| DiscordBot.author_bot := false; DiscordBot.in_dm := false;
                 DiscordBot.channel_id := 7; DiscordBot.mentions_bot := true;
                 DiscordBot.content := "hello bot" |})
    as (_ & _ & _ & Hchannel & _).
  intros Hchat.
  apply (Hchannel 42 eq_refl ltac:(discriminate) eq_refl eq_refl eq_refl) in Hchat.
  discriminate.
Defined.

(** * The number guessing game *)








(** * The code block of the eval command *)

Lemma append_cons (a : Ascii.ascii) (s1 s2 : string) :
  (String a s1 +:+ s2)%string = String a (s1 +:+ s2)%string.
Proof. reflexivity. Qed.

Lemma prefix_nil (s : string) : String.prefix "" s = true.
Proof. destruct s; reflexivity. Qed.

Lemma prefix_cons (a : Ascii.ascii) (s1 s2 : string) :
  String.prefix (String a s1) (String a s2) = String.prefix s1 s2.
Proof. cbn. destruct (Ascii.ascii_dec a a); congruence. Qed.

Lemma substring_0_append (a b : string) :
  String.substring 0 (String.length a) (a +:+ b)%string = a.
Proof.
  induction a as [|x a IH]; [destruct b; reflexivity|].
  rewrite append_cons.
  cbn [String.length String.substring]. rewrite IH. reflexivity.
Qed.

Lemma prefix_python_fenced (body : string) :
  String.prefix "python" body = false ->
  String.prefix "python" (body +:+ "```")%string = false.
Proof.
  assert (Hstep : forall a p b s,
            String.prefix (String a p) (String b s)
            = if Ascii.ascii_dec a b then String.prefix p s else false).
  { intros a p b s. cbn. destruct (Ascii.ascii_dec a b); reflexivity. }
  destruct body as [|c1 [|c2 [|c3 [|c4 [|c5 [|c6 s]]]]]];
    rewrite ?append_cons; change ("" +:+ "```")%string with "```"%string;
    rewrite ?Hstep;
    repeat match goal with
           | |- context [Ascii.ascii_dec ?x ?y] =>
               destruct (Ascii.ascii_dec x y) as [?|?];
               [try congruence|intros _; reflexivity]
           end; try (intros _; reflexivity).
  rewrite prefix_nil. discriminate.
Qed.

Lemma prefix_longer_fence (code : string) :
  String.prefix "```" code = false ->
  String.prefix "```python" code = false.
Proof.
  assert (Hstep : forall a p b s,
            String.prefix (String a p) (String b s)
            = if Ascii.ascii_dec a b then String.prefix p s else false).
  { intros a p b s. cbn. destruct (Ascii.ascii_dec a b); reflexivity. }
  destruct code as [|c1 [|c2 [|c3 s]]]; try (intros _; reflexivity);
    rewrite ?Hstep;
    repeat match goal with
           | |- context [Ascii.ascii_dec ?x ?y] =>
               destruct (Ascii.ascii_dec x y) as [?|?];
               [try congruence|intros _; reflexivity]
           end; try (intros _; reflexivity).
  rewrite prefix_nil. discriminate.
Qed.

(** X14: [eval_code] takes the fences off a fenced code block and gives
    back exactly what stood between them, for a block opened with three
    backquotes and the word python as for one opened with three
    backquotes only; code without an opening fence is left as it is;
    and when the opening fence is there but the closing one is not, the
    last three characters of the code are lost. *)
Theorem eval_code_block_unfenced (body : string) :
  AdminCommands.strip_code_block ("```python" +:+ body +:+ "```")%string = body
  /\ (String.prefix "python" body = false ->
      AdminCommands.strip_code_block ("```" +:+ body +:+ "```")%string = body
      /\ AdminCommands.strip_code_block ("```" +:+ body)%string
         = String.substring 0 (String.length body - 3) body)
  /\ (String.prefix "```" body = false ->
      AdminCommands.strip_code_block body = body).
Proof.
  unfold AdminCommands.strip_code_block, AdminCommands.slice_off.
  split; [|split].
  - rewrite !append_cons, !prefix_cons, prefix_nil.
    change ("" +:+ body +:+ "```")%string with (body +:+ "```")%string.
    cbn [String.length String.substring]. rewrite length_append.
    change (String.length "```") with 3%nat.
    replace (S (S (S (S (S (S (S (S (S (String.length body + 3)))))))))
               - 3 - 9)%nat
      with (String.length body) by lia.
    apply substring_0_append.
  - intros Hplain. split.
    + rewrite !append_cons, !prefix_cons.
      change ("" +:+ body +:+ "```")%string with (body +:+ "```")%string.
      rewrite (prefix_python_fenced body Hplain), prefix_nil.
      cbn [String.length String.substring]. rewrite length_append.
      change (String.length "```") with 3%nat.
      replace (S (S (S (String.length body + 3))) - 3 - 3)%nat
        with (String.length body) by lia.
      apply substring_0_append.
    + rewrite !append_cons, !prefix_cons.
      change ("" +:+ body)%string with body.
      rewrite Hplain, prefix_nil.
      cbn [String.length String.substring].
      replace (S (S (S (String.length body))) - 3 - 3)%nat
        with (String.length body - 3)%nat by lia.
      reflexivity.
  - intros Hnone.
    rewrite (prefix_longer_fence body Hnone), Hnone. reflexivity.
Qed.

Lemma eval_code_block_witness :
  AdminCommands.strip_code_block "```print(1)```" = "print(1)"%string
  /\ AdminCommands.strip_code_block "```print(1)" = "print"%string
  /\ AdminCommands.strip_code_block "print(1)" = "print(1)"%string.
Proof.
  destruct (eval_code_block_unfenced "print(1)") as (_ & Hplain & Hnone).
  split; [apply Hplain; reflexivity|].
  split; [apply Hplain; reflexivity|apply Hnone; reflexivity].
Defined.
